(** * MongoWrapper: a shallow embedding of [MongoWrapper.py]

    The wrapper stores Python dictionaries in a MongoDB collection and moves
    every numpy array it meets into GridFS, leaving the ObjectId of the GridFS
    file in the array's place.  This file embeds [save], [load], [delete] and
    the two recursive passes [_stashNPArrays] and [_loadNPArrays], together
    with the part of pymongo, gridfs, pickle, hashlib and datetime they call,
    and proves properties of them. *)

From Stdlib Require Import ZArith.
From stdpp Require Import gmap strings list.

Open Scope string_scope.
Open Scope nat_scope.
Open Scope list_scope.
#[local] Set Warnings "-register-all".

(** ** Python values *)

(** A bson [ObjectId].  The driver draws them from a generator that never
    repeats; the embedding numbers them. *)
Abbreviation oid := nat (only parsing).

(** A numpy array: element type, shape, and the elements in storage order. *)
Record ndarray := NdArray {
  dtype : string;
  shape : list nat;
  buffer : list Z;
}.

(** The values a document holds, by the runtime types the two passes test
    for ([np.ndarray], [dict], [ObjectId], [np.integer], [np.inexact]) and
    the ones they pass over.  A [dict] is its [items()] list: the passes visit
    the entries in that order, and assigning to a key that is present leaves
    the order as it is. *)
Inductive value :=
| VNone
| VBool (b : bool)
| VInt (z : Z)
| VFloat (x : Z)
| VStr (s : string)
| VDatetime (t : Z)
| VObjectId (o : oid)
| VNdarray (a : ndarray)
| VNpInteger (z : Z)
| VNpInexact (x : Z)
| VList (l : list value)
| VDict (items : list (string * value)).

Abbreviation document := (list (string * value)) (only parsing).

(** [d[key]], [None] standing for [KeyError]. *)
Fixpoint dict_get (key : string) (d : document) : option value :=
  match d with
  | [] => None
  | (k, v) :: rest => if String.eqb k key then Some v else dict_get key rest
  end.

(** [d[key] = v] for a key the dict has: the entry gets the new value where
    it stands, and [items()] keeps its order. *)
Fixpoint dict_replace (key : string) (v : value) (d : document) : document :=
  match d with
  | [] => []
  | (k, x) :: rest =>
      if String.eqb k key then (k, v) :: rest
      else (k, x) :: dict_replace key v rest
  end.

(** [lst.remove(x)]: drops the first element equal to [x]. *)
Fixpoint list_remove (x : oid) (lst : list oid) : list oid :=
  match lst with
  | [] => []
  | y :: rest => if Nat.eqb y x then rest else y :: list_remove x rest
  end.

(** Equality of two values, as the collection compares identities. *)
Fixpoint value_eqb (v w : value) {struct v} : bool :=
  match v, w with
  | VNone, VNone => true
  | VBool a, VBool b => Bool.eqb a b
  | VInt a, VInt b => Z.eqb a b
  | VFloat a, VFloat b => Z.eqb a b
  | VStr a, VStr b => String.eqb a b
  | VDatetime a, VDatetime b => Z.eqb a b
  | VObjectId a, VObjectId b => Nat.eqb a b
  | VNdarray a, VNdarray b =>
      String.eqb (dtype a) (dtype b)
      && bool_decide (shape a = shape b) && bool_decide (buffer a = buffer b)
  | VNpInteger a, VNpInteger b => Z.eqb a b
  | VNpInexact a, VNpInexact b => Z.eqb a b
  | VList l, VList m =>
      (fix go (l m : list value) {struct l} : bool :=
         match l, m with
         | [], [] => true
         | x :: l', y :: m' => value_eqb x y && go l' m'
         | _, _ => false
         end) l m
  | VDict l, VDict m =>
      (fix go (l m : list (string * value)) {struct l} : bool :=
         match l, m with
         | [], [] => true
         | (k, x) :: l', (k', y) :: m' =>
             String.eqb k k' && value_eqb x y && go l' m'
         | _, _ => false
         end) l m
  | _, _ => false
  end.

(** The list of ObjectIds a stored reference list holds; [None] when the
    value is not a list of ObjectIds. *)
Fixpoint oids_of (l : list value) : option (list oid) :=
  match l with
  | [] => Some []
  | VObjectId o :: rest => cons o <$> oids_of rest
  | _ :: _ => None
  end.

Definition as_oid_list (v : value) : option (list oid) :=
  match v with
  | VList l => oids_of l
  | _ => None
  end.

(** The value at the end of a path of keys through nested dicts. *)
Fixpoint get_path (path : list string) (v : value) : option value :=
  match path with
  | [] => Some v
  | key :: path' =>
      match v with
      | VDict d =>
          match dict_get key d with
          | Some x => get_path path' x
          | None => None
          end
      | _ => None
      end
  end.

(** The reference list a dict carries, if there is a dict. *)
Definition references (d : option (list (string * value))) : option value :=
  d ≫= dict_get "_npObjectIDs".

(** The arrays the encode pass meets in a value, in the order it meets
    them: the arrays themselves and those in dicts, not those in lists. *)
Section ArraysOfItems.
Variable arrays_of_value : value → list ndarray.
Fixpoint arrays_of_items (d : list (string * value)) : list ndarray :=
  match d with
  | [] => []
  | (_, v) :: rest => arrays_of_value v ++ arrays_of_items rest
  end.
End ArraysOfItems.

Fixpoint arrays_of_value (v : value) : list ndarray :=
  match v with
  | VNdarray a => [a]
  | VDict d => arrays_of_items arrays_of_value d
  | _ => []
  end.

Definition arrays_of (d : list (string * value)) : list ndarray :=
  arrays_of_items arrays_of_value d.

(** ** The libraries the wrapper calls *)

(** The exceptions of the embedded code.  The source never raises
    [NotFoundError]; the constructor names the error of the specification.
    [InvalidDocument] and [OverflowError] are what the BSON encoder of the
    driver raises for a value it cannot encode and for an integer beyond
    eight bytes.  [OutOfModel] marks inputs the embedding does not follow: a
    caller object that does not exist, a reference list that is not a list of
    ObjectIds, a dict given to [collection.remove] as a query. *)
Inductive exn :=
| KeyError
| TypeError
| NoFile
| UnpicklingError
| NotFoundError
| InvalidDocument
| OverflowError
| OutOfModel.

(** Does the value hold a numpy array, at any depth, in dicts or in lists? *)
Fixpoint holds_ndarray (v : value) : bool :=
  match v with
  | VNdarray _ => true
  | VList l => existsb holds_ndarray l
  | VDict d => existsb (fun kv => holds_ndarray (snd kv)) d
  | _ => false
  end.

(** [pickle], [hashlib], the clock, the BSON encoder of the driver and the
    hash table of the interpreter's dicts are not part of the repository; the
    wrapper takes what they do as given. *)
Class Externals := {
  (** the pickled form of an array, as [Binary(pickle.dumps(a, protocol=2))] *)
  bytes : Type;
  (** an md5 hex digest *)
  digest : Type;
  digest_eq_dec :: EqDecision digest;
  pickle_dumps : ndarray → bytes;
  (** [pickle.loads]; [None] when it raises *)
  pickle_loads : bytes → option value;
  md5_hexdigest : bytes → digest;
  (** the reading of the n-th call of [datetime.datetime.now()] *)
  datetime_now : nat → Z;
  (** the exception the BSON encoder raises for a document the collection
      is asked to store; [None] when it encodes it.  It has no encoding for a
      numpy array. *)
  bson_error : list (string * value) → option exn;
  bson_error_ndarray :
    ∀ d, holds_ndarray (VDict d) = true → bson_error d ≠ None;
  (** [items()] of a dict after an assignment to a key it did not have.  The
      source runs under Python 2, where the hash table decides where the new
      key comes to stand and, when the table grows, where the other keys
      stand afterwards: the entries are those of before and the new one, in
      some order, and each key is found with its value. *)
  dict_insert : string → value → list (string * value) → list (string * value);
  dict_insert_items :
    ∀ key v d, dict_insert key v d ≡ₚ d ++ [(key, v)];
  dict_insert_get :
    ∀ key v d k, dict_get k (dict_insert key v d) = dict_get k (d ++ [(key, v)]);
}.

(** [d[key] = v]: in place when the key is present, a new entry otherwise. *)
Definition dict_set {E : Externals} (key : string) (v : value) (d : document)
  : document :=
  match dict_get key d with
  | Some _ => dict_replace key v d
  | None => dict_insert key v d
  end.
Arguments dict_set {E} key v d : simpl never.

Inductive outcome (A : Type) :=
| Ok (a : A)
| Raise (e : exn).
Arguments Ok {A} a.
Arguments Raise {A} e.

(** The calls that write to one of the two stores, in the order made. *)
Inductive call :=
| FsPut (o : oid)
| FsDelete (o : oid)
| CollectionSave (id : value)
| CollectionRemove (id : value).

Section Wrapper.
Context {E : Externals}.

(** ** The state the code runs in *)

Record world := World {
  (** GridFS: file id to file content *)
  fs : gmap nat bytes;
  (** the collection's documents, in natural order *)
  collection : list (list (string * value));
  (** the next ObjectId the generator hands out *)
  next_oid : nat;
  (** how often the clock has been read *)
  now_calls : nat;
  (** the writing calls made so far, oldest first *)
  calls : list call;
  (** [self.temp_oldNpObjectIDs] and [self.temp_newNpObjectIds] *)
  temp_oldNpObjectIDs : list nat;
  temp_newNpObjectIds : list nat;
  (** the dict objects of the caller, by address *)
  objects : gmap nat (list (string * value));
}.

Definition with_fs (f : gmap nat bytes) (w : world) : world :=
  World f (collection w) (next_oid w) (now_calls w) (calls w)
        (temp_oldNpObjectIDs w) (temp_newNpObjectIds w) (objects w).
Definition with_collection (c : list (list (string * value))) (w : world) : world :=
  World (fs w) c (next_oid w) (now_calls w) (calls w)
        (temp_oldNpObjectIDs w) (temp_newNpObjectIds w) (objects w).
Definition with_next_oid (n : nat) (w : world) : world :=
  World (fs w) (collection w) n (now_calls w) (calls w)
        (temp_oldNpObjectIDs w) (temp_newNpObjectIds w) (objects w).
Definition with_now_calls (n : nat) (w : world) : world :=
  World (fs w) (collection w) (next_oid w) n (calls w)
        (temp_oldNpObjectIDs w) (temp_newNpObjectIds w) (objects w).
Definition with_calls (l : list call) (w : world) : world :=
  World (fs w) (collection w) (next_oid w) (now_calls w) l
        (temp_oldNpObjectIDs w) (temp_newNpObjectIds w) (objects w).
Definition with_temp_old (l : list nat) (w : world) : world :=
  World (fs w) (collection w) (next_oid w) (now_calls w) (calls w)
        l (temp_newNpObjectIds w) (objects w).
Definition with_temp_new (l : list nat) (w : world) : world :=
  World (fs w) (collection w) (next_oid w) (now_calls w) (calls w)
        (temp_oldNpObjectIDs w) l (objects w).
Definition with_objects (h : gmap nat (list (string * value))) (w : world) : world :=
  World (fs w) (collection w) (next_oid w) (now_calls w) (calls w)
        (temp_oldNpObjectIDs w) (temp_newNpObjectIds w) h.

(** ** Computations: state and exceptions

    A raised exception keeps the state reached, as in Python. *)
Definition M (A : Type) : Type := world → outcome A * world.

Definition ret {A} (a : A) : M A := fun w => (Ok a, w).
Definition raise {A} (e : exn) : M A := fun w => (Raise e, w).
Definition bind {A B} (m : M A) (k : A → M B) : M B :=
  fun w =>
    match m w with
    | (Ok a, w') => k a w'
    | (Raise e, w') => (Raise e, w')
    end.
Definition gets {A} (f : world → A) : M A := fun w => (Ok (f w), w).
Definition modify (f : world → world) : M unit := fun w => (Ok tt, f w).

Notation "x <- m ;; k" := (bind m (fun x => k))
  (at level 100, m at next level, right associativity).
Notation "m ;;; k" := (bind m (fun _ => k))
  (at level 100, right associativity).

(** [for x in l: body(x)] *)
Fixpoint for_each {A} (body : A → M unit) (l : list A) : M unit :=
  match l with
  | [] => ret tt
  | x :: rest => body x ;;; for_each body rest
  end.

(** [[f(x) for x in l]] *)
Fixpoint list_comprehension {A B} (f : A → M B) (l : list A) : M (list B) :=
  match l with
  | [] => ret []
  | x :: rest =>
      y <- f x ;;
      ys <- list_comprehension f rest ;;
      ret (y :: ys)
  end.

(** ** gridfs, pymongo and datetime *)

Definition log (c : call) : M unit :=
  modify (fun w => with_calls (calls w ++ [c]) w).

(** [fs.get(o)]: the file's content, [NoFile] when there is none.  The md5
    GridFS keeps for a file is the digest of its content. *)
Definition fs_get (o : oid) : M bytes :=
  fun w =>
    match fs w !! o with
    | Some b => (Ok b, w)
    | None => (Raise NoFile, w)
    end.

(** [fs.put(data)]: stores the data under a new ObjectId. *)
Definition fs_put (data : bytes) : M oid :=
  o <- gets next_oid ;;
  modify (fun w => with_next_oid (S o) (with_fs (<[o := data]> (fs w)) w)) ;;;
  log (FsPut o) ;;;
  ret o.

(** [fs.delete(o)]: removes the file; silent when there is none. *)
Definition fs_delete (o : oid) : M unit :=
  modify (fun w => with_fs (delete o (fs w)) w) ;;;
  log (FsDelete o).

(** Does the document have identity [id]? *)
Definition has_id (id : value) (d : document) : bool :=
  match dict_get "_id" d with
  | Some v => value_eqb v id
  | None => false
  end.

(** Replace the first document that satisfies [p], or append. *)
Fixpoint upsert (p : document → bool) (d : document) (c : list document)
  : list document :=
  match c with
  | [] => [d]
  | x :: rest => if p x then d :: rest else x :: upsert p d rest
  end.

(** [collection.save(d)]: an insert under a new ObjectId when [d] has no
    '_id', otherwise an update with upsert on that '_id'.  The driver encodes
    the document before it sends it: when the encoder raises, nothing is
    stored. *)
Definition collection_save (d : document) : M value :=
  match bson_error d with
  | Some e => raise e
  | None =>
      match dict_get "_id" d with
      | None =>
          o <- gets next_oid ;;
          modify (fun w =>
            with_next_oid (S o)
              (with_collection
                 (collection w ++ [dict_set "_id" (VObjectId o) d]) w)) ;;;
          log (CollectionSave (VObjectId o)) ;;;
          ret (VObjectId o)
      | Some id =>
          modify (fun w =>
            with_collection (upsert (has_id id) d (collection w)) w) ;;;
          log (CollectionSave id) ;;;
          ret id
      end
  end.

(** [collection.find(query)]: a query is the test it performs on a document. *)
Definition collection_find (query : document → bool) : M (list document) :=
  gets (fun w => filter (fun d => query d = true) (collection w)).

(** [collection.find_one({"_id": id})] *)
Definition collection_find_one (id : value) : M (option document) :=
  gets (fun w => head (filter (fun d => has_id id d = true) (collection w))).

(** [collection.remove(spec_or_id)].  The driver takes [None] for the
    query that selects every document, a dict for a query, and any other
    value for the '_id' of the documents to remove. *)
Definition collection_remove (spec_or_id : value) : M unit :=
  match spec_or_id with
  | VNone =>
      modify (with_collection []) ;;;
      log (CollectionRemove spec_or_id)
  | VDict _ => raise OutOfModel
  | _ =>
      modify (fun w =>
        with_collection
          (filter (fun d => has_id spec_or_id d = false) (collection w)) w) ;;;
      log (CollectionRemove spec_or_id)
  end.

(** [datetime.datetime.now()] *)
Definition now : M value :=
  n <- gets now_calls ;;
  modify (with_now_calls (S n)) ;;;
  ret (VDatetime (datetime_now n)).

(** The caller's dict object at an address. *)
Definition read_object (loc : nat) : M document :=
  fun w =>
    match objects w !! loc with
    | Some d => (Ok d, w)
    | None => (Raise OutOfModel, w)
    end.

(** [doc[key] = v] on the caller's object. *)
Definition object_setitem (loc : nat) (key : string) (v : value) : M unit :=
  d <- read_object loc ;;
  modify (fun w => with_objects (<[loc := dict_set key v d]> (objects w)) w).

(** [copy.deepcopy]: an equal value that shares nothing with its argument. *)
Definition deepcopy (d : document) : document := d.

(** ** Utility functions *)

Definition _npArray2Binary (npArray : ndarray) : bytes := pickle_dumps npArray.

Definition _binary2npArray (binary : bytes) : M value :=
  match pickle_loads binary with
  | Some v => ret v
  | None => raise UnpicklingError
  end.

(** Visit the entries of a dict in order and assign each its new value. *)
Section Items.
Variable f : string → value → M value.
Fixpoint for_items (d : document) : M document :=
  match d with
  | [] => ret []
  | (key, v) :: rest =>
      v' <- f key v ;;
      rest' <- for_items rest ;;
      ret ((key, v') :: rest')
  end.
End Items.

(** The body of the loop of [_loadNPArrays], for one entry. *)
Fixpoint load_entry (key : string) (v : value) {struct v} : M value :=
  match v with
  | VObjectId o =>
      if String.eqb key "_id" then ret v
      else b <- fs_get o ;; _binary2npArray b
  | VDict d => d' <- for_items load_entry d ;; ret (VDict d')
  | _ => ret v
  end.

Definition _loadNPArrays (doc : document) : M document :=
  for_items load_entry doc.

(** The loop over [self.temp_oldNpObjectIDs] in [_stashNPArrays].  The list
    is read afresh at every step, at the position the iterator has reached,
    and [remove] shortens it while the loop runs.  [n] bounds the number of
    steps; [found] is the last old file assigned to [document[key]]. *)
Fixpoint scan_old (n i : nat) (dataMD5 : digest) (found : option nat)
  : M (option nat) :=
  match n with
  | 0 => ret found
  | S n' =>
      lst <- gets temp_oldNpObjectIDs ;;
      match lst !! i with
      | None => ret found
      | Some obj =>
          b <- fs_get obj ;;
          if decide (dataMD5 = md5_hexdigest b) then
            modify (fun w => with_temp_old (list_remove obj (temp_oldNpObjectIDs w)) w) ;;;
            modify (fun w => with_temp_new (temp_newNpObjectIds w ++ [obj]) w) ;;;
            scan_old n' (S i) dataMD5 (Some obj)
          else scan_old n' (S i) dataMD5 found
      end
  end.

(** The [np.ndarray] branch of [_stashNPArrays]: the ObjectId that takes
    the array's place. *)
Definition stash_array (a : ndarray) : M oid :=
  let dataBSON := _npArray2Binary a in
  let dataMD5 := md5_hexdigest dataBSON in
  lst <- gets temp_oldNpObjectIDs ;;
  found <- scan_old (length lst) 0 dataMD5 None ;;
  match found with
  | Some obj => ret obj
  | None =>
      obj <- fs_put (_npArray2Binary a) ;;
      modify (fun w => with_temp_new (temp_newNpObjectIds w ++ [obj]) w) ;;;
      ret obj
  end.

(** The body of the loop of [_stashNPArrays], for one entry. *)
Fixpoint stash_entry (key : string) (v : value) {struct v} : M value :=
  match v with
  | VNdarray a => obj <- stash_array a ;; ret (VObjectId obj)
  | VDict d => d' <- for_items stash_entry d ;; ret (VDict d')
  | VNpInteger z => ret (VInt z)
  | VNpInexact x => ret (VFloat x)
  | _ => ret v
  end.

Definition _stashNPArrays (doc : document) : M document :=
  for_items stash_entry doc.

(** ** Core methods *)

(** The reference list a document carries into [save]: the value under
    '_npObjectIDs', or the empty list when the key is missing. *)
Definition old_references (docCopy : document) : M (list oid) :=
  match dict_get "_npObjectIDs" docCopy with
  | None => ret []
  | Some v =>
      match as_oid_list v with
      | Some l => ret l
      | None => raise OutOfModel
      end
  end.

Definition reference_list (l : list oid) : value := VList (VObjectId <$> l).

(** The body of the loop of [save], for the caller's dict at [loc], in the
    five steps the code takes: copy and set up the two lists; the encode
    pass; attach the new list; delete what is left of the old list; stamp,
    store and hand the identity back. *)
Definition save_setup (loc : nat) : M document :=
  doc <- read_object loc ;;
  let docCopy := deepcopy doc in
  old <- old_references docCopy ;;
  modify (with_temp_old old) ;;;
  modify (with_temp_new []) ;;;
  ret docCopy.

Definition save_attach (loc : nat) (docCopy : document) : M document :=
  new <- gets temp_newNpObjectIds ;;
  let docCopy := dict_set "_npObjectIDs" (reference_list new) docCopy in
  object_setitem loc "_npObjectIDs" (reference_list new) ;;;
  ret docCopy.

Definition save_cleanup : M unit :=
  old <- gets temp_oldNpObjectIDs ;;
  for_each fs_delete old ;;;
  modify (with_temp_old []).

Definition save_store (loc : nat) (docCopy : document) : M value :=
  t <- now ;;
  let docCopy := dict_set "insertion_date" t docCopy in
  t' <- now ;;
  object_setitem loc "insertion_date" t' ;;;
  new_id <- collection_save docCopy ;;
  object_setitem loc "_id" new_id ;;;
  ret new_id.

Definition save_doc (loc : nat) : M value :=
  docCopy <- save_setup loc ;;
  docCopy <- _stashNPArrays docCopy ;;
  docCopy <- save_attach loc docCopy ;;
  save_cleanup ;;;
  save_store loc docCopy.

(** [save(document)], for a list of the caller's dicts.  A single dict is
    the list of that one dict. *)
Definition save (document : list nat) : M (list value) :=
  list_comprehension save_doc document.

Definition save_one (doc : nat) : M (list value) := save [doc].

(** [load(query, getarrays)]: [None], a dict, or a list of dicts. *)
Definition load (query : document → bool) (getarrays : bool) : M value :=
  results <- collection_find query ;;
  allResults <- (if getarrays then list_comprehension _loadNPArrays results
                 else ret results) ;;
  match allResults with
  | [] => ret VNone
  | [d] => ret (VDict d)
  | _ => ret (VList (VDict <$> allResults))
  end.

(** [delete(objectId)] *)
Definition delete (objectId : value) : M unit :=
  documentToDelete <- collection_find_one objectId ;;
  match documentToDelete with
  | None => raise TypeError
  | Some d =>
      match dict_get "_npObjectIDs" d with
      | None => raise KeyError
      | Some v =>
          match as_oid_list v with
          | None => raise OutOfModel
          | Some npObjectIdsToDelete =>
              for_each fs_delete npObjectIdsToDelete ;;;
              collection_remove objectId
          end
      end
  end.

(** ** [loadFromIds] *)

(** How [loadFromIds] can end badly: with an exception of [load], or with
    the [UnboundLocalError] of reading its local [obj_id] before any
    assignment to it. *)
Inductive loadFromIds_exn :=
| Raised (e : exn)
| UnboundLocalError.

(** The local [obj_id] after the [if]/[elif] of the loop body for [id];
    [None] while nothing has been assigned to it.  An ObjectId is taken as it
    is; a string is turned into the ObjectId it spells, or kept as a string
    when [ObjectId(id)] raises; for a value of any other type there is no
    branch and [obj_id] keeps what it had.  [ObjectId_of_str] is bson's
    constructor on strings, [None] when it raises. *)
Definition assign_obj_id (ObjectId_of_str : string → option nat)
  (id : value) (obj_id : option value) : option value :=
  match id with
  | VObjectId _ => Some id
  | VStr s =>
      match ObjectId_of_str s with
      | Some o => Some (VObjectId o)
      | None => Some id
      end
  | _ => obj_id
  end.

(** The loop of [loadFromIds] over the rest of [Ids], with the local
    [obj_id] and the list [out] built so far. *)
Fixpoint loadFromIds_loop (ObjectId_of_str : string → option nat)
  (Ids : list value) (obj_id : option value) (out : list value)
  : world → (list value + loadFromIds_exn) * world :=
  match Ids with
  | [] => fun w => (inl out, w)
  | id :: rest =>
      fun w =>
        match assign_obj_id ObjectId_of_str id obj_id with
        | None => (inr UnboundLocalError, w)
        | Some q =>
            match load (has_id q) true w with
            | (Ok r, w') =>
                loadFromIds_loop ObjectId_of_str rest (Some q) (out ++ [r]) w'
            | (Raise e, w') => (inr (Raised e), w')
            end
        end
  end.

(** [loadFromIds(Ids)]: a value that is not a list is the list of that one
    value. *)
Definition loadFromIds (ObjectId_of_str : string → option nat) (Ids : value)
  : world → (list value + loadFromIds_exn) * world :=
  let Ids := match Ids with VList l => l | _ => [Ids] end in
  loadFromIds_loop ObjectId_of_str Ids None [].

(** ** Two saves on one wrapper, step by step

    A thread that runs [save] on one document stands before one of the five
    steps of [save_doc], or has returned, or has raised.  The two lists of the
    wrapper are fields of [self]: all threads read and write the same two. *)
Inductive thread :=
| AtSetup (loc : nat)
| AtStash (loc : nat) (docCopy : document)
| AtAttach (loc : nat) (docCopy : document)
| AtCleanup (loc : nat) (docCopy : document)
| AtStore (loc : nat) (docCopy : document)
| Finished (new_id : value)
| Failed (e : exn).

Definition advance {A} (m : M A) (next : A → thread) : world → thread * world :=
  fun w =>
    match m w with
    | (Ok a, w') => (next a, w')
    | (Raise e, w') => (Failed e, w')
    end.

Definition thread_step (t : thread) : world → thread * world :=
  match t with
  | AtSetup loc => advance (save_setup loc) (AtStash loc)
  | AtStash loc d => advance (_stashNPArrays d) (AtAttach loc)
  | AtAttach loc d => advance (save_attach loc d) (AtCleanup loc)
  | AtCleanup loc d => advance save_cleanup (fun _ => AtStore loc d)
  | AtStore loc d => advance (save_store loc d) Finished
  | Finished _ | Failed _ => fun w => (t, w)
  end.

(** Run the threads in the order the schedule names them. *)
Fixpoint run_schedule (schedule : list nat) (threads : list thread) (w : world)
  : list thread * world :=
  match schedule with
  | [] => (threads, w)
  | i :: rest =>
      match threads !! i with
      | Some t =>
          let (t', w') := thread_step t w in
          run_schedule rest (<[i := t']> threads) w'
      | None => run_schedule rest threads w
      end
  end.

End Wrapper.

(** * DotDict.py *)

Module DotDict.

(** The values a [DotDict] holds, by what the class tests for: whether
    [type(x) is dict], and whether [isinstance(x, dict)], which is also true
    of a [DotDict].  A dict of either class is its [items()] list, as for the
    documents above. *)
Inductive pyvalue :=
| PyNone
| PyAtom (a : string)
| PyList (l : list pyvalue)
| PyDict (items : list (string * pyvalue))
| PyDotDict (items : list (string * pyvalue)).

(** [d.get(key)], [dict.__setitem__(d, key, v)] and [dict.__delitem__(d,
    key)]; the last is [None] when it raises [KeyError]. *)
Fixpoint get (key : string) (d : list (string * pyvalue)) : option pyvalue :=
  match d with
  | [] => None
  | (k, v) :: rest => if String.eqb k key then Some v else get key rest
  end.

Fixpoint __setitem__ (key : string) (v : pyvalue) (d : list (string * pyvalue))
  : list (string * pyvalue) :=
  match d with
  | [] => [(key, v)]
  | (k, x) :: rest =>
      if String.eqb k key then (k, v) :: rest
      else (k, x) :: __setitem__ key v rest
  end.

Fixpoint __delitem__ (key : string) (d : list (string * pyvalue))
  : option (list (string * pyvalue)) :=
  match d with
  | [] => None
  | (k, x) :: rest =>
      if String.eqb k key then Some rest
      else cons (k, x) <$> __delitem__ key rest
  end.

(** The loop of [__init__] over the keys of [arg], filling the new, empty
    [self]. *)
Section InitItems.
Variable init_value : pyvalue → pyvalue.
Fixpoint init_items (arg : list (string * pyvalue)) : list (string * pyvalue) :=
  match arg with
  | [] => []
  | (k, x) :: rest => (k, init_value x) :: init_items rest
  end.
End InitItems.

(** What [__init__] stores for [arg[k]]: [DotDict(arg[k])] when its type is
    [dict], and [arg[k]] itself otherwise. *)
Fixpoint init_value (x : pyvalue) : pyvalue :=
  match x with
  | PyDict items => PyDotDict (init_items init_value items)
  | _ => x
  end.

(** [DotDict(arg)]: the items of the new object. *)
Definition __init__ (arg : list (string * pyvalue)) : list (string * pyvalue) :=
  init_items init_value arg.

(** [self.get(attr, None)] *)
Definition __getattr__ (self : list (string * pyvalue)) (attr : string)
  : pyvalue :=
  match get attr self with
  | Some v => v
  | None => PyNone
  end.

Definition __setattr__ (self : list (string * pyvalue)) (name : string)
  (value : pyvalue) : list (string * pyvalue) :=
  match value with
  | PyDict items | PyDotDict items =>
      __setitem__ name (PyDotDict (__init__ items)) self
  | _ => __setitem__ name value self
  end.

Definition __delattr__ (self : list (string * pyvalue)) (name : string)
  : option (list (string * pyvalue)) :=
  __delitem__ name self.

(** [copy.deepcopy]: atoms as they are, lists and dicts item by item, and a
    [DotDict] by its [__deepcopy__], which is
    [DotDict(copy.deepcopy(dict(self)))]. *)
Section DeepcopyItems.
Variable deepcopy : pyvalue → pyvalue.
Fixpoint deepcopy_items (d : list (string * pyvalue)) : list (string * pyvalue) :=
  match d with
  | [] => []
  | (k, x) :: rest => (k, deepcopy x) :: deepcopy_items rest
  end.
End DeepcopyItems.

Fixpoint deepcopy (x : pyvalue) : pyvalue :=
  match x with
  | PyNone | PyAtom _ => x
  | PyList l => PyList (map deepcopy l)
  | PyDict items => PyDict (deepcopy_items deepcopy items)
  | PyDotDict items => PyDotDict (__init__ (deepcopy_items deepcopy items))
  end.


(** ** Vocabulary *)

(** A value as [==] sees it: a [DotDict] equals the dict of its items. *)
Section AsDictItems.
Variable as_dict : pyvalue → pyvalue.
Fixpoint as_dict_items (d : list (string * pyvalue)) : list (string * pyvalue) :=
  match d with
  | [] => []
  | (k, x) :: rest => (k, as_dict x) :: as_dict_items rest
  end.
End AsDictItems.

Fixpoint as_dict (x : pyvalue) : pyvalue :=
  match x with
  | PyNone | PyAtom _ => x
  | PyList l => PyList (map as_dict l)
  | PyDict items | PyDotDict items => PyDict (as_dict_items as_dict items)
  end.

(** Every dict met on the way down from [x] through dicts is a [DotDict]:
    attribute access can go all the way.  Lists are not looked into. *)
Section DottedItems.
Variable dotted : pyvalue → Prop.
Fixpoint dotted_items (d : list (string * pyvalue)) : Prop :=
  match d with
  | [] => True
  | (_, x) :: rest => dotted x ∧ dotted_items rest
  end.
End DottedItems.

Fixpoint dotted (x : pyvalue) : Prop :=
  match x with
  | PyDict _ => False
  | PyDotDict items => dotted_items dotted items
  | _ => True
  end.

(** Plain dicts may hold plain dicts and [DotDict]s, and every [DotDict]
    met on the way down is [dotted]: such are the dicts a driver returns, and
    the [DotDict]s made of them. *)
Fixpoint plain_above_dotted (x : pyvalue) : Prop :=
  match x with
  | PyDict items => dotted_items plain_above_dotted items
  | PyDotDict items => dotted_items dotted items
  | _ => True
  end.

End DotDict.

(** ** A concrete instance of the libraries, for running the code

    The pickled form of an array is the array, its digest the pickled form,
    and the clock reads 1000, 1001, ...  The encoder refuses a document that
    holds a numpy array or an integer beyond eight bytes.  A new key of a dict
    comes to stand after the others. *)
Definition ndarray_eq_dec : EqDecision ndarray.
Proof. solve_decision. Defined.

(** Does the value hold an integer that does not fit eight bytes? *)
Fixpoint holds_long (v : value) : bool :=
  match v with
  | VInt z => negb ((-9223372036854775808 <=? z)%Z && (9223372036854775807 >=? z)%Z)
  | VList l => existsb holds_long l
  | VDict d => existsb (fun kv => holds_long (snd kv)) d
  | _ => false
  end.

Definition plain_bson_error (d : document) : option exn :=
  if holds_ndarray (VDict d) then Some InvalidDocument
  else if holds_long (VDict d) then Some OverflowError
  else None.

Definition plain_externals : Externals.
Proof.
  refine {|
    bytes := ndarray;
    digest := ndarray;
    digest_eq_dec := ndarray_eq_dec;
    pickle_dumps := fun a => a;
    pickle_loads := fun b => Some (VNdarray b);
    md5_hexdigest := fun b => b;
    datetime_now := fun n => (1000 + Z.of_nat n)%Z;
    bson_error := plain_bson_error;
    dict_insert := fun key v d => d ++ [(key, v)];
  |}.
  - intros d H. unfold plain_bson_error. rewrite H. discriminate.
  - reflexivity.
  - reflexivity.
Defined.

Definition empty_world {E : Externals} : world :=
  World ∅ [] 0 0 [] [] [] ∅.

(** A world with one caller object. *)
Definition world_with {E : Externals} (loc : nat) (d : document) : world :=
  with_objects {[ loc := d ]} empty_world.

Definition array123 : ndarray := NdArray "int64" [3] [1; 2; 3]%Z.
Definition array456 : ndarray := NdArray "int64" [3] [4; 5; 6]%Z.

(** ** Runs of the code *)

Module Run.

#[local] Existing Instance plain_externals.

(** The scenario of the specification: save [{name: "trial1", data:
    [1,2,3]}], then set [data] to [[4,5,6]] and save again. *)
Definition trial1 : document :=
  [("name", VStr "trial1"); ("data", VNdarray array123)].
Definition trial1_saved : world := (save_one 0 (world_with 0 trial1)).2.
Definition trial1_edited : world :=
  (object_setitem 0 "data" (VNdarray array456) trial1_saved).2.
Definition trial1_resaved : world := (save_one 0 trial1_edited).2.

(** A document with three equal arrays, saved, and saved again as it is. *)
Definition triple : document :=
  [("a", VNdarray array123); ("b", VNdarray array123); ("c", VNdarray array123)].
Definition triple_saved : world := (save_one 0 (world_with 0 triple)).2.
Definition triple_resaved : world := (save_one 0 triple_saved).2.

(** The state in which the second save of [triple] meets its first array:
    the old list is that of the first save. *)
Definition triple_at_first_array : world :=
  with_temp_new [] (with_temp_old [0; 1; 2] triple_saved).

(** Two callers, each with one document of one array, on one wrapper. *)
Definition two_callers : world :=
  with_objects {[ 0 := [("data", VNdarray array123)];
                  1 := [("data", VNdarray array456)] ]} empty_world.
Definition two_threads : list thread := [AtSetup 0; AtSetup 1].
Definition in_turn : list nat := [0; 0; 0; 0; 0; 1; 1; 1; 1; 1].
Definition interleaved : list nat := [0; 1; 0; 1; 0; 1; 0; 1; 0; 1].

(** A document whose array sits under the key '_id' of a nested dict. *)
Definition nested_id : document :=
  [("meta", VDict [("_id", VNdarray array123)])].

(** The caller's dict after the first save of [trial1], and after the
    caller has set [data] anew. *)
Definition trial1_as_saved : document :=
  [("name", VStr "trial1"); ("data", VNdarray array123);
   ("_npObjectIDs", VList [VObjectId 0]);
   ("insertion_date", VDatetime 1001); ("_id", VObjectId 1)].
Definition trial1_as_edited : document :=
  [("name", VStr "trial1"); ("data", VNdarray array456);
   ("_npObjectIDs", VList [VObjectId 0]);
   ("insertion_date", VDatetime 1001); ("_id", VObjectId 1)].

(** The two documents of [two_callers], saved one after the other. *)
Definition two_saved : world := (save [0; 1] two_callers).2.

(** A document with a list that holds an array and an ObjectId. *)
Definition with_list : document :=
  [("runs", VList [VNdarray array123; VObjectId 0])].



(** The document the first save of [trial1] stores. *)
Definition trial1_stored : document :=
  [("name", VStr "trial1"); ("data", VObjectId 0);
   ("_npObjectIDs", VList [VObjectId 0]);
   ("insertion_date", VDatetime 1000); ("_id", VObjectId 1)].

(** A document whose reference list names a file that is not there. *)
Definition dangling : document :=
  [("data", VNdarray array123); ("_npObjectIDs", VList [VObjectId 5])].

(** A collection whose one document refers to another document by its
    ObjectId. *)
Definition with_parent : world :=
  with_collection [[("_id", VObjectId 0); ("parent", VObjectId 7)]] empty_world.

(** An [ObjectId] constructor on strings that takes the string "1" only. *)
Definition spell (s : string) : option nat :=
  if String.eqb s "1" then Some 1 else None.

End Run.

(** * Vocabulary of the properties *)

Section Vocabulary.
Context {E : Externals}.

(** The documents a query selects. *)
Definition matches (query : document → bool) (w : world) : list document :=
  filter (λ d, query d = true) (collection w).

(** The encode pass only adds files to GridFS, under new ObjectIds, takes
    entries off the old list and appends to the new one. *)
Record stash_rel (w w' : world) : Prop := {
  sr_collection : collection w' = collection w;
  sr_objects : objects w' = objects w;
  sr_now : now_calls w' = now_calls w;
  sr_next : next_oid w ≤ next_oid w';
  sr_calls :
    calls w' = calls w ++ (FsPut <$> seq (next_oid w) (next_oid w' - next_oid w));
  sr_fs_below : ∀ o, o < next_oid w → fs w' !! o = fs w !! o;
  sr_fs_above : ∀ o, next_oid w' ≤ o → fs w' !! o = fs w !! o;
  sr_old : temp_oldNpObjectIDs w' `sublist_of` temp_oldNpObjectIDs w;
  sr_new : temp_newNpObjectIds w `prefix_of` temp_newNpObjectIds w';
}.

(** The rest of [save_doc] once the encode pass has returned. *)
Definition save_finish (loc : nat) (docCopy : document) : M value :=
  bind (save_attach loc docCopy) (λ docCopy,
  bind save_cleanup (λ _, save_store loc docCopy)).

(** GridFS after [fs.delete] of each of [l]. *)
Definition delete_all (l : list nat) (f : gmap nat bytes) : gmap nat bytes :=
  foldl (λ f o, base.delete o f) f l.

(** The identity [collection.save] gives a document. *)
Definition saved_id (d : document) (w : world) : value :=
  match dict_get "_id" d with
  | Some id => id
  | None => VObjectId (next_oid w)
  end.

(** The calls [save] makes for one document: the calls of the state after
    it that the state before it did not have. *)
Definition calls_since (w w' : world) : list call :=
  drop (length (calls w)) (calls w').

(** What C1 asks of the calls of one [save]: every [fs.delete] comes after a
    [collection.save]. *)
Definition deleted_only_after_upsert (seg : list call) : Prop :=
  ∀ i o, seg !! i = Some (FsDelete o) →
    ∃ j id, j < i ∧ seg !! j = Some (CollectionSave id).

(** The calls of a [save] of the document [d] that led from [w] to [w']
    and returned [id]: the [fs.put]s of the encode pass, then one [fs.delete]
    for each reference the encode pass left on the old list, then the one
    [collection.save]; and the files deleted are gone. *)
Definition puts_then_deletes_then_upsert (d : document) (w : world)
  (id : value) (w' : world) : Prop :=
  ∃ old d1 w1,
    old_references d w = (Ok old, w)
    ∧ _stashNPArrays d (with_temp_new [] (with_temp_old old w)) = (Ok d1, w1)
    ∧ fs w' = delete_all (temp_oldNpObjectIDs w1) (fs w1)
    ∧ calls_since w w' =
        (FsPut <$> seq (next_oid w) (next_oid w1 - next_oid w))
        ++ (FsDelete <$> temp_oldNpObjectIDs w1)
        ++ [CollectionSave id].



(** The files the reference list of the caller's dict at [loc] names hold
    the pickled arrays of that dict. *)
Definition references_own_arrays (w : world) (loc : nat) : Prop :=
  ∃ d refs,
    objects w !! loc = Some d
    ∧ dict_get "_npObjectIDs" d ≫= as_oid_list = Some refs
    ∧ ∀ o, o ∈ refs →
        ∃ key a, dict_get key d = Some (VNdarray a)
                 ∧ fs w !! o = Some (pickle_dumps a).

(** [for_items] for a loop body that needs no state. *)
Fixpoint map_items (f : string → value → outcome value) (d : document)
  : outcome document :=
  match d with
  | [] => Ok []
  | (key, v) :: rest =>
      match f key v with
      | Raise e => Raise e
      | Ok v' =>
          match map_items f rest with
          | Raise e => Raise e
          | Ok rest' => Ok ((key, v') :: rest')
          end
      end
  end.

(** What the decode pass makes of an entry, given the files of GridFS. *)
Fixpoint decode_entry (files : gmap nat bytes) (key : string) (v : value)
  {struct v} : outcome value :=
  match v with
  | VObjectId o =>
      if String.eqb key "_id" then Ok v
      else match files !! o with
           | None => Raise NoFile
           | Some b =>
               match pickle_loads b with
               | Some x => Ok x
               | None => Raise UnpicklingError
               end
           end
  | VDict d =>
      match map_items (decode_entry files) d with
      | Ok d' => Ok (VDict d')
      | Raise e => Raise e
      end
  | _ => Ok v
  end.

(** How a thread ends that ran [save_doc] with the given outcome. *)
Definition thread_of_outcome (r : outcome value) : thread :=
  match r with
  | Ok new_id => Finished new_id
  | Raise e => Failed e
  end.



(** A value and what the encode pass made of it: an array has become the
    ObjectId of a file that [holds] it, a numpy number a Python number, a
    dict the dict of its encoded entries, and all else has stayed. *)
Section EncodedItems.
Variable encoded : value → value → Prop.
Fixpoint encoded_items (d d' : document) : Prop :=
  match d, d' with
  | [], [] => True
  | (k, x) :: rest, (k', x') :: rest' =>
      k = k' ∧ encoded x x' ∧ encoded_items rest rest'
  | _, _ => False
  end.
End EncodedItems.

Fixpoint encoded (holds : nat → ndarray → Prop) (x x' : value) {struct x} : Prop :=
  match x with
  | VNdarray a => ∃ o, x' = VObjectId o ∧ holds o a
  | VDict d => ∃ d', x' = VDict d' ∧ encoded_items (encoded holds) d d'
  | VNpInteger z => x' = VInt z
  | VNpInexact z => x' = VFloat z
  | _ => x' = x
  end.

(** The file [o] holds the array [a], and the save under way will keep it:
    it is not on the old list, whose rest is deleted. *)
Definition kept_file (w : world) (o : nat) (a : ndarray) : Prop :=
  fs w !! o = Some (pickle_dumps a) ∧ o < next_oid w
  ∧ o ∉ temp_oldNpObjectIDs w.

(** No ObjectId outside a list sits under a key other than '_id': the
    decode pass would take it for the name of a file. *)
Section CleanItems.
Variable clean : string → value → Prop.
Fixpoint clean_items (d : document) : Prop :=
  match d with
  | [] => True
  | (k, x) :: rest => clean k x ∧ clean_items rest
  end.
End CleanItems.

Fixpoint clean (key : string) (x : value) {struct x} : Prop :=
  match x with
  | VObjectId _ => key = "_id"
  | VDict d => clean_items clean d
  | _ => True
  end.

(** The files of the old list are there, each once, and none has the md5
    of the pickled form of an array of [P] without being that pickled form.
    All files lie below the next ObjectId. *)
Record encode_ready (P : ndarray → Prop) (w : world) : Prop := {
  er_below : ∀ o, is_Some (fs w !! o) → o < next_oid w;
  er_nodup : NoDup (temp_oldNpObjectIDs w);
  er_there : ∀ o, o ∈ temp_oldNpObjectIDs w → is_Some (fs w !! o);
  er_md5 : ∀ o b a, o ∈ temp_oldNpObjectIDs w → fs w !! o = Some b → P a →
             md5_hexdigest (pickle_dumps a) = md5_hexdigest b → b = pickle_dumps a;
}.

(** The two stores as the drivers keep them: every file and every identity
    the generator gave lies below its next ObjectId, and no two documents of
    the collection have one identity. *)
Record store_ok (w : world) : Prop := {
  so_files : map_Forall (λ o _, o < next_oid w) (fs w);
  so_ids : ∀ n, next_oid w ≤ n →
             Forall (λ d, has_id (VObjectId n) d = false) (collection w);
  so_unique : ∀ id, length (filter (λ d, has_id id d = true) (collection w)) ≤ 1;
}.

(** What C7 asks of [save] and [load] for a document at [loc] and a path
    to one of its arrays: when the [save] returns, the [load] by the identity
    returned gives one document, which holds the array at the path; and when
    the [save] raises, the exception is that of [collection.save]. *)
Definition restores_array (w : world) (loc : nat) (path : list string)
  (a : ndarray) : Prop :=
  (∀ id w',
     save_doc loc w = (Ok id, w') →
     ∃ d',
       load (has_id id) true w' = (Ok (VDict d'), w')
       ∧ get_path path (VDict d') = Some (VNdarray a))
  ∧ (∀ e w',
       save_doc loc w = (Raise e, w') → ∃ stored, bson_error stored = Some e).

(** A document the caller may save into [w]: its reference list, when it
    has one, is a list [old] of ObjectIds of files that are there, each named
    once; none of these files has the md5 of the pickled form of an array of
    the document without being that pickled form; and the document is
    clean. *)
Record document_ok (w : world) (d : document) (old : list nat) : Prop := {
  do_old : old_references d w = (Ok old, w);
  do_nodup : NoDup old;
  do_there : ∀ o, o ∈ old → is_Some (fs w !! o);
  do_md5 : ∀ o b a, o ∈ old → fs w !! o = Some b → a ∈ arrays_of d →
             md5_hexdigest (pickle_dumps a) = md5_hexdigest b → b = pickle_dumps a;
  do_clean : clean_items clean d;
}.

(** The md5 GridFS keeps for the file [o], if the file is there. *)
Definition file_md5 (w : world) (o : nat) : option digest :=
  md5_hexdigest <$> fs w !! o.

(** The arrays [pending], which the encode pass is yet to meet, each have
    their file on the old list; no two files of the old list have one digest,
    and neither have two of the arrays. *)
Record awaiting (pending : list ndarray) (w : world) : Prop := {
  aw_nodup : NoDup (file_md5 w <$> temp_oldNpObjectIDs w);
  aw_there : ∀ o, o ∈ temp_oldNpObjectIDs w → is_Some (fs w !! o);
  aw_file : ∀ a, a ∈ pending →
              ∃ o, o ∈ temp_oldNpObjectIDs w ∧ fs w !! o = Some (pickle_dumps a);
  aw_digests : NoDup ((λ a, md5_hexdigest (pickle_dumps a)) <$> pending);
}.


(** The values the encode pass hands back as they are: all but arrays,
    dicts and numpy numbers. *)
Definition kept_by_encode (v : value) : bool :=
  match v with
  | VNdarray _ | VDict _ | VNpInteger _ | VNpInexact _ => false
  | _ => true
  end.


(** No numpy array and no numpy number, looking into dicts and not into
    lists, as the encode pass does. *)
Section NumpyFreeItems.
Variable numpy_free : value → Prop.
Fixpoint numpy_free_items (d : document) : Prop :=
  match d with
  | [] => True
  | (_, x) :: rest => numpy_free x ∧ numpy_free_items rest
  end.
End NumpyFreeItems.

Fixpoint numpy_free (x : value) {struct x} : Prop :=
  match x with
  | VNdarray _ | VNpInteger _ | VNpInexact _ => False
  | VDict d => numpy_free_items numpy_free d
  | _ => True
  end.

(** The values the decode pass hands back as they are: all but ObjectIds
    and dicts. *)
Definition kept_by_decode (v : value) : bool :=
  match v with
  | VObjectId _ | VDict _ => false
  | _ => true
  end.

(** The values [loadFromIds] has a branch for: ObjectIds and strings. *)
Definition ObjectId_or_str (id : value) : bool :=
  match id with
  | VObjectId _ | VStr _ => true
  | _ => false
  end.

(** The identity [loadFromIds] searches for an ObjectId or a string: the
    ObjectId itself, the ObjectId a string spells, or the string when it
    spells none. *)
Definition id_sought (ObjectId_of_str : string → option nat) (id : value)
  : value :=
  match id with
  | VStr s =>
      match ObjectId_of_str s with
      | Some o => VObjectId o
      | None => id
      end
  | _ => id
  end.

(** The dicts in a value that hold arrays, the dicts in those dicts
    included, as often as they occur. *)
Section ArrayDictsItems.
Variable array_dicts : value → list (list (string * value)).
Fixpoint array_dicts_items (d : document) : list (list (string * value)) :=
  match d with
  | [] => []
  | (_, v) :: rest => array_dicts v ++ array_dicts_items rest
  end.
End ArrayDictsItems.

Fixpoint array_dicts (v : value) : list (list (string * value)) :=
  match v with
  | VDict d =>
      match arrays_of d with
      | [] => []
      | _ :: _ => [d]
      end ++ array_dicts_items array_dicts d
  | _ => []
  end.



End Vocabulary.

(** * Properties *)

(** ** Induction on values *)

(** The principle Rocq derives for [value] says nothing of the values inside
    a list or a dict; this one does. *)
Lemma value_nested_ind (P : value → Prop) :
  P VNone → (∀ b, P (VBool b)) → (∀ z, P (VInt z)) → (∀ x, P (VFloat x)) →
  (∀ s, P (VStr s)) → (∀ t, P (VDatetime t)) → (∀ o, P (VObjectId o)) →
  (∀ a, P (VNdarray a)) → (∀ z, P (VNpInteger z)) → (∀ x, P (VNpInexact x)) →
  (∀ l, Forall P l → P (VList l)) →
  (∀ d, Forall (λ kv, P kv.2) d → P (VDict d)) →
  ∀ v, P v.
Proof.
  intros HNone HBool HInt HFloat HStr HDate HOid HArr HNpI HNpX HList HDict.
  fix IH 1. intros [|b|z|x|s|t|o|a|z|x|l|d].
  - exact HNone.
  - apply HBool.
  - apply HInt.
  - apply HFloat.
  - apply HStr.
  - apply HDate.
  - apply HOid.
  - apply HArr.
  - apply HNpI.
  - apply HNpX.
  - apply HList. induction l as [|x l IHl]; constructor; [apply IH|exact IHl].
  - apply HDict. induction d as [|[k x] d IHd]; constructor; [apply IH|exact IHd].
Qed.

Lemma value_eqb_refl v : value_eqb v v = true.
Proof.
  induction v as [|b|z|x|s|t|o|a|z|x|l IH|d IH] using value_nested_ind; cbn.
  - reflexivity.
  - by destruct b.
  - apply Z.eqb_refl.
  - apply Z.eqb_refl.
  - apply String.eqb_refl.
  - apply Z.eqb_refl.
  - apply Nat.eqb_refl.
  - rewrite String.eqb_refl, !bool_decide_eq_true_2 by done. reflexivity.
  - apply Z.eqb_refl.
  - apply Z.eqb_refl.
  - induction IH as [|x l Hx _ IHl]; [reflexivity|]. by rewrite Hx, IHl.
  - induction IH as [|[k x] d Hx _ IHd]; [reflexivity|].
    cbn in Hx. by rewrite String.eqb_refl, Hx, IHd.
Qed.

(** ** Reasoning about computations *)

Section MonadFacts.
Context {E : Externals}.

Lemma bind_inv {A B} (m : M A) (k : A → M B) w r w' :
  bind m k w = (r, w') →
  (∃ a w1, m w = (Ok a, w1) ∧ k a w1 = (r, w'))
  ∨ (∃ e, m w = (Raise e, w') ∧ r = Raise e).
Proof.
  unfold bind. destruct (m w) as [[a|e] w1]; intros H.
  - left. eauto.
  - right. inversion H; subst. eauto.
Qed.

Lemma bind_ok {A B} (m : M A) (k : A → M B) w a w1 :
  m w = (Ok a, w1) → bind m k w = k a w1.
Proof. unfold bind. intros ->. reflexivity. Qed.

Lemma bind_raise {A B} (m : M A) (k : A → M B) w e w1 :
  m w = (Raise e, w1) → bind m k w = (Raise e, w1).
Proof. unfold bind. intros ->. reflexivity. Qed.

End MonadFacts.

(** ** The decode pass and [load] *)

Section Load.
Context {E : Externals}.

Lemma for_items_reads (f : string → value → M value) d :
  Forall (λ kv, ∀ k w r w', f k kv.2 w = (r, w') → w' = w) d →
  ∀ w r w', for_items f d w = (r, w') → w' = w.
Proof.
  induction 1 as [|[k v] d Hv _ IH]; intros w r w' H; cbn in H.
  - inversion H; auto.
  - apply bind_inv in H as [(v' & w1 & H1 & H)|(e & H1 & _)];
      [|by eapply Hv].
    apply Hv in H1 as ->.
    apply bind_inv in H as [(d' & w2 & H2 & H)|(e & H2 & _)]; [|by eapply IH].
    apply IH in H2 as ->. inversion H; auto.
Qed.

Lemma load_entry_reads v :
  ∀ k w r w', load_entry k v w = (r, w') → w' = w.
Proof.
  induction v as [| | | | | |o| | | |l _|d IH] using value_nested_ind;
    intros k w r w' H; cbn in H; try (inversion H; auto; fail).
  - destruct (String.eqb k "_id"); [inversion H; auto|].
    unfold bind, fs_get, _binary2npArray in H.
    destruct (fs w !! o) as [b|]; [|inversion H; auto].
    destruct (pickle_loads b); inversion H; auto.
  - apply bind_inv in H as [(d' & w1 & H1 & H)|(e & H1 & _)].
    + eapply for_items_reads in H1 as ->; [inversion H; auto|].
      eapply Forall_impl; [exact IH|]. cbn. eauto.
    + eapply for_items_reads in H1; [auto|].
      eapply Forall_impl; [exact IH|]. cbn. eauto.
Qed.

Lemma _loadNPArrays_reads d w r w' : _loadNPArrays d w = (r, w') → w' = w.
Proof.
  apply for_items_reads. apply Forall_forall. intros kv _ k.
  apply load_entry_reads.
Qed.

Lemma list_comprehension_reads {A B} (f : A → M B) l :
  (∀ x w r w', f x w = (r, w') → w' = w) →
  ∀ w r w', list_comprehension f l w = (r, w') → w' = w.
Proof.
  intros Hf. induction l as [|x l IH]; intros w r w' H; cbn in H.
  - inversion H; auto.
  - apply bind_inv in H as [(y & w1 & H1 & H)|(e & H1 & _)]; [|by eapply Hf].
    apply Hf in H1 as ->.
    apply bind_inv in H as [(ys & w2 & H2 & H)|(e & H2 & _)]; [|by eapply IH].
    apply IH in H2 as ->. inversion H; auto.
Qed.

Lemma list_comprehension_length {A B} (f : A → M B) l :
  ∀ w ys w', list_comprehension f l w = (Ok ys, w') → length ys = length l.
Proof.
  induction l as [|x l IH]; intros w ys w' H; cbn in H.
  - inversion H; auto.
  - apply bind_inv in H as [(y & w1 & H1 & H)|(e & H1 & [=])].
    apply bind_inv in H as [(zs & w2 & H2 & H)|(e & H2 & [=])].
    inversion H; subst. cbn. f_equal. eauto.
Qed.

Lemma load_unfold query getarrays w :
  load query getarrays w =
  bind (if getarrays then list_comprehension _loadNPArrays (matches query w)
        else ret (matches query w))
       (λ allResults,
          match allResults with
          | [] => ret VNone
          | [d] => ret (VDict d)
          | _ => ret (VList (VDict <$> allResults))
          end) w.
Proof. reflexivity. Qed.

(** C5.  [load] answers by the number of documents the query selects: with
    none it returns [None] and raises nothing; with one it returns that
    document, decoded when arrays are asked for; with more it returns the
    list of them all, each decoded when arrays are asked for.  It leaves the
    state as it was. *)
Theorem load_return_shape (query : document → bool) (w : world) :
  (matches query w = [] →
     ∀ getarrays, load query getarrays w = (Ok VNone, w))
  ∧ (∀ d, matches query w = [d] →
       load query false w = (Ok (VDict d), w)
       ∧ ∀ d' w', _loadNPArrays d w = (Ok d', w') →
           load query true w = (Ok (VDict d'), w))
  ∧ (1 < length (matches query w) →
       load query false w = (Ok (VList (VDict <$> matches query w)), w)
       ∧ ∀ ds w', list_comprehension _loadNPArrays (matches query w) w = (Ok ds, w') →
           length ds = length (matches query w)
           ∧ load query true w = (Ok (VList (VDict <$> ds)), w)).
Proof.
  split; [|split].
  - intros Hnone [|]; rewrite load_unfold, Hnone; reflexivity.
  - intros d Hone. split.
    + rewrite load_unfold, Hone. reflexivity.
    + intros d' w' Hd. pose proof (_loadNPArrays_reads _ _ _ _ Hd) as ->.
      rewrite load_unfold, Hone. unfold list_comprehension, bind.
      rewrite Hd. reflexivity.
  - intros Hmany. split.
    + rewrite load_unfold. unfold bind, ret.
      destruct (matches query w) as [|x [|y l]]; cbn in *; try lia. reflexivity.
    + intros ds w' Hds.
      pose proof (list_comprehension_length _ _ _ _ _ Hds) as Hlen.
      pose proof (list_comprehension_reads _ _ _loadNPArrays_reads _ _ _ Hds) as ->.
      split; [exact Hlen|].
      rewrite load_unfold. unfold bind at 1. rewrite Hds.
      destruct ds as [|x [|y l]]; cbn in *; try lia. reflexivity.
Qed.

End Load.

(** ** What the encode pass may change *)

Section Stash.
Context {E : Externals}.

Lemma stash_rel_refl w : stash_rel w w.
Proof.
  split; auto.
  - rewrite Nat.sub_diag. cbn. by rewrite app_nil_r.
Qed.

Lemma stash_rel_trans w1 w2 w3 : stash_rel w1 w2 → stash_rel w2 w3 → stash_rel w1 w3.
Proof.
  intros [] []. split; try congruence; try lia.
  - rewrite sr_calls1, sr_calls0, <- app_assoc, <- fmap_app. do 2 f_equal.
    replace (next_oid w3 - next_oid w1)
      with ((next_oid w2 - next_oid w1) + (next_oid w3 - next_oid w2)) by lia.
    rewrite seq_app. do 2 f_equal. lia.
  - intros o Ho. rewrite sr_fs_below1 by lia. auto.
  - intros o Ho. rewrite sr_fs_above1 by lia. apply sr_fs_above0. lia.
  - etrans; eauto.
  - etrans; eauto.
Qed.

Lemma list_remove_sublist x l : list_remove x l `sublist_of` l.
Proof.
  induction l as [|y l IH]; cbn; [done|].
  destruct (y =? x); [by apply sublist_cons|by apply sublist_skip].
Qed.

Lemma list_remove_length x l : length (list_remove x l) ≤ length l.
Proof. apply sublist_length, list_remove_sublist. Qed.

Lemma scan_old_unfold n i h found w :
  scan_old (S n) i h found w =
  match temp_oldNpObjectIDs w !! i with
  | None => (Ok found, w)
  | Some obj =>
      match fs w !! obj with
      | None => (Raise NoFile, w)
      | Some b =>
          if decide (h = md5_hexdigest b)
          then scan_old n (S i) h (Some obj)
                 (with_temp_new (temp_newNpObjectIds w ++ [obj])
                    (with_temp_old (list_remove obj (temp_oldNpObjectIDs w)) w))
          else scan_old n (S i) h found w
      end
  end.
Proof.
  cbn [scan_old]. unfold bind at 1, gets.
  destruct (temp_oldNpObjectIDs w !! i) as [obj|]; [|reflexivity].
  unfold bind at 1, fs_get.
  destruct (fs w !! obj) as [b|]; [|reflexivity].
  destruct (decide (h = md5_hexdigest b)); reflexivity.
Qed.

(** The bound [stash_array] gives the loop is never what ends it: with the
    length of the list at its start, and one less for every step taken, one
    more step allowed changes nothing. *)
Lemma scan_old_bound_not_reached n : ∀ i h found w,
  length (temp_oldNpObjectIDs w) - i ≤ n →
  scan_old (S n) i h found w = scan_old n i h found w.
Proof.
  induction n as [|n IH]; intros i h found w Hlen.
  - rewrite scan_old_unfold.
    rewrite (lookup_ge_None_2 (temp_oldNpObjectIDs w) i) by lia. reflexivity.
  - rewrite (scan_old_unfold (S n) i h found w), (scan_old_unfold n i h found w).
    destruct (temp_oldNpObjectIDs w !! i) as [obj|]; [|reflexivity].
    destruct (fs w !! obj) as [b|]; [|reflexivity].
    destruct (decide (h = md5_hexdigest b)).
    + apply IH. cbn.
      pose proof (list_remove_length obj (temp_oldNpObjectIDs w)). lia.
    + apply IH. lia.
Qed.

Lemma for_items_rel (R : world → world → Prop) (f : string → value → M value) d :
  (∀ w, R w w) → (∀ w1 w2 w3, R w1 w2 → R w2 w3 → R w1 w3) →
  Forall (λ kv, ∀ k w r w', f k kv.2 w = (r, w') → R w w') d →
  ∀ w r w', for_items f d w = (r, w') → R w w'.
Proof.
  intros Hrefl Htrans.
  induction 1 as [|[k v] d Hv _ IH]; intros w r w' H; cbn in H.
  - inversion H; subst. apply Hrefl.
  - apply bind_inv in H as [(v' & w1 & H1 & H)|(e & H1 & _)];
      [|by eapply Hv].
    apply Hv in H1.
    apply bind_inv in H as [(d' & w2 & H2 & H)|(e & H2 & _)];
      [|eapply Htrans; eauto].
    apply IH in H2. inversion H; subst. eauto.
Qed.

Lemma scan_old_rel n : ∀ i h found w r w',
  scan_old n i h found w = (r, w') → stash_rel w w' ∧ next_oid w' = next_oid w.
Proof.
  induction n as [|n IH]; intros i h found w r w' H; cbn in H.
  - inversion H; subst. split; [apply stash_rel_refl|done].
  - unfold bind at 1, gets in H.
    destruct (temp_oldNpObjectIDs w !! i) as [obj|];
      [|inversion H; subst; split; [apply stash_rel_refl|done]].
    unfold bind at 1, fs_get in H.
    destruct (fs w !! obj) as [b|];
      [|inversion H; subst; split; [apply stash_rel_refl|done]].
    destruct (decide (h = md5_hexdigest b)).
    + apply IH in H as [HR Hn]. cbn in Hn. split; [|done].
      eapply stash_rel_trans; [|exact HR].
      split; cbn; auto.
      * rewrite Nat.sub_diag. cbn. by rewrite app_nil_r.
      * apply list_remove_sublist.
      * by apply prefix_app_r.
    + by apply IH in H.
Qed.

Lemma fs_put_rel data w :
  ∃ w', fs_put data w = (Ok (next_oid w), w')
        ∧ stash_rel w w' ∧ next_oid w' = S (next_oid w)
        ∧ fs w' = <[next_oid w := data]> (fs w)
        ∧ temp_oldNpObjectIDs w' = temp_oldNpObjectIDs w
        ∧ temp_newNpObjectIds w' = temp_newNpObjectIds w.
Proof.
  eexists. split; [reflexivity|]. cbn. repeat split; cbn; auto.
  - replace (S (next_oid w) - next_oid w) with 1 by lia. reflexivity.
  - intros o Ho. apply lookup_insert_ne. lia.
  - intros o Ho. apply lookup_insert_ne. lia.
Qed.

Lemma stash_array_rel a w r w' :
  stash_array a w = (r, w') → stash_rel w w'.
Proof.
  unfold stash_array. intros H.
  unfold bind at 1, gets in H.
  apply bind_inv in H as [(found & w1 & H1 & H)|(e & H1 & _)];
    [|by apply scan_old_rel in H1 as [? _]].
  apply scan_old_rel in H1 as [H1 _].
  destruct found as [obj|]; [inversion H; subst; done|].
  destruct (fs_put_rel (_npArray2Binary a) w1) as (w2 & Hput & HR & _).
  unfold bind at 1 in H. rewrite Hput in H.
  cbn in H. inversion H; subst.
  eapply stash_rel_trans; [exact H1|]. eapply stash_rel_trans; [exact HR|].
  split; cbn; auto.
  - rewrite Nat.sub_diag. cbn. by rewrite app_nil_r.
  - by apply prefix_app_r.
Qed.

Lemma for_items_stash_rel (f : string → value → M value) d :
  Forall (λ kv, ∀ k w r w', f k kv.2 w = (r, w') → stash_rel w w') d →
  ∀ w r w', for_items f d w = (r, w') → stash_rel w w'.
Proof. apply for_items_rel; [apply stash_rel_refl|apply stash_rel_trans]. Qed.

Lemma stash_entry_rel v : ∀ k w r w', stash_entry k v w = (r, w') → stash_rel w w'.
Proof.
  induction v as [| | | | | | |a| | |l _|d IH] using value_nested_ind;
    intros k w r w' H; cbn in H;
    try (inversion H; subst; apply stash_rel_refl).
  - apply bind_inv in H as [(o & w1 & H1 & H)|(e & H1 & _)].
    + inversion H; subst. by eapply stash_array_rel.
    + by eapply stash_array_rel.
  - assert (∀ r1 w1, for_items stash_entry d w = (r1, w1) → stash_rel w w1) as Hd.
    { intros r1 w1. apply for_items_stash_rel.
      eapply Forall_impl; [exact IH|]. cbn. eauto. }
    apply bind_inv in H as [(d' & w1 & H1 & H)|(e & H1 & _)].
    + inversion H; subst. eauto.
    + eauto.
Qed.

Lemma _stashNPArrays_rel d w r w' : _stashNPArrays d w = (r, w') → stash_rel w w'.
Proof.
  apply for_items_stash_rel. apply Forall_forall. intros kv _ k.
  apply stash_entry_rel.
Qed.

End Stash.

(** ** The steps of [save] after the encode pass *)

Section SaveSteps.
Context {E : Externals}.

Lemma for_each_fs_delete l : ∀ w,
  for_each fs_delete l w =
  (Ok tt, with_calls (calls w ++ (FsDelete <$> l)) (with_fs (delete_all l (fs w)) w)).
Proof.
  induction l as [|o l IH]; intros w.
  - cbn. rewrite app_nil_r. by destruct w.
  - cbn [for_each]. unfold bind at 1. cbn. rewrite IH. cbn.
    by rewrite <- app_assoc.
Qed.

Lemma save_doc_unfold loc w :
  save_doc loc w =
  bind (save_setup loc) (λ docCopy,
  bind (_stashNPArrays docCopy) (λ docCopy, save_finish loc docCopy)) w.
Proof. reflexivity. Qed.

Lemma save_attach_spec loc d docCopy w :
  objects w !! loc = Some d →
  save_attach loc docCopy w =
  (Ok (dict_set "_npObjectIDs" (reference_list (temp_newNpObjectIds w)) docCopy),
   with_objects
     (<[loc := dict_set "_npObjectIDs" (reference_list (temp_newNpObjectIds w)) d]>
        (objects w)) w).
Proof.
  intros Hloc. unfold save_attach, object_setitem, read_object, bind, gets, modify.
  rewrite Hloc. reflexivity.
Qed.

Lemma save_cleanup_spec w :
  save_cleanup w =
  (Ok tt,
   with_temp_old []
     (with_calls (calls w ++ (FsDelete <$> temp_oldNpObjectIDs w))
        (with_fs (delete_all (temp_oldNpObjectIDs w) (fs w)) w))).
Proof.
  unfold save_cleanup. unfold bind at 1. cbn [gets].
  unfold bind. rewrite for_each_fs_delete. reflexivity.
Qed.

Lemma dict_get_snoc_ne k k0 v d :
  k ≠ k0 → dict_get k (d ++ [(k0, v)]) = dict_get k d.
Proof.
  intros Hne. induction d as [|[k1 x] d IH]; cbn.
  - destruct (String.eqb_spec k0 k); congruence.
  - by rewrite IH.
Qed.

Lemma dict_get_snoc_eq k v d :
  dict_get k d = None → dict_get k (d ++ [(k, v)]) = Some v.
Proof.
  induction d as [|[k1 x] d IH]; cbn.
  - by rewrite String.eqb_refl.
  - destruct (String.eqb k1 k); [done|exact IH].
Qed.

Lemma dict_get_replace_ne key k v d :
  key ≠ k → dict_get key (dict_replace k v d) = dict_get key d.
Proof.
  intros Hne. induction d as [|[k' x] d IH]; cbn; [done|].
  destruct (String.eqb_spec k' k); cbn.
  - subst. destruct (String.eqb_spec k key); congruence.
  - by rewrite IH.
Qed.

Lemma dict_get_replace_eq k v d :
  is_Some (dict_get k d) → dict_get k (dict_replace k v d) = Some v.
Proof.
  induction d as [|[k' x] d IH]; cbn; [by intros [? ?]|].
  destruct (String.eqb_spec k' k) as [->|Hne]; cbn.
  - by rewrite String.eqb_refl.
  - destruct (String.eqb_spec k' k); [done|]. exact IH.
Qed.

Lemma dict_get_set_ne key k v d :
  key ≠ k → dict_get key (dict_set k v d) = dict_get key d.
Proof.
  intros Hne. unfold dict_set. destruct (dict_get k d) eqn:Hk.
  - by apply dict_get_replace_ne.
  - rewrite dict_insert_get. by apply dict_get_snoc_ne.
Qed.

Lemma dict_get_set_eq k v d : dict_get k (dict_set k v d) = Some v.
Proof.
  unfold dict_set. destruct (dict_get k d) eqn:Hk.
  - apply dict_get_replace_eq. by rewrite Hk.
  - rewrite dict_insert_get. by apply dict_get_snoc_eq.
Qed.

Lemma get_path_dict_set_ne k0 rest k v d :
  k0 ≠ k →
  get_path (k0 :: rest) (VDict (dict_set k v d)) = get_path (k0 :: rest) (VDict d).
Proof. intros Hne. cbn. by rewrite dict_get_set_ne. Qed.

(** [save_store] when the encoder takes the document. *)
Lemma save_store_returns loc d docCopy w :
  objects w !! loc = Some d →
  let stored :=
    dict_set "insertion_date" (VDatetime (datetime_now (now_calls w))) docCopy in
  let id := saved_id stored w in
  bson_error stored = None →
  ∃ w',
    save_store loc docCopy w = (Ok id, w')
    ∧ fs w' = fs w
    ∧ calls w' = calls w ++ [CollectionSave id]
    ∧ objects w' =
        <[loc := dict_set "_id" id
                   (dict_set "insertion_date"
                      (VDatetime (datetime_now (S (now_calls w)))) d)]> (objects w)
    ∧ collection w' =
        match dict_get "_id" stored with
        | Some id => upsert (has_id id) stored (collection w)
        | None => collection w ++ [dict_set "_id" id stored]
        end
    ∧ temp_oldNpObjectIDs w' = temp_oldNpObjectIDs w
    ∧ temp_newNpObjectIds w' = temp_newNpObjectIds w
    ∧ next_oid w' = match dict_get "_id" stored with
                    | Some _ => next_oid w
                    | None => S (next_oid w)
                    end
    ∧ now_calls w' = S (S (now_calls w)).
Proof.
  intros Hloc stored id Hb. subst id. unfold saved_id.
  unfold save_store, now, object_setitem, read_object, collection_save.
  unfold bind, gets, modify, log, ret. cbn. rewrite Hloc. cbn.
  fold stored. rewrite Hb.
  destruct (dict_get "_id" stored) as [id|] eqn:Hid.
  - eexists. cbn. rewrite lookup_insert_eq.
    split; [reflexivity|]. cbn. rewrite insert_insert_eq. repeat split; auto.
  - eexists. cbn. rewrite lookup_insert_eq.
    split; [reflexivity|]. cbn. rewrite insert_insert_eq. repeat split; auto.
Qed.

(** [save_store] when the encoder refuses the document: both clock
    readings are taken and the caller's dict has its 'insertion_date'; the
    collection is as it was. *)
Lemma save_store_raises loc d docCopy w e :
  objects w !! loc = Some d →
  bson_error
    (dict_set "insertion_date" (VDatetime (datetime_now (now_calls w))) docCopy)
  = Some e →
  save_store loc docCopy w =
  (Raise e,
   with_objects
     (<[loc := dict_set "insertion_date"
                 (VDatetime (datetime_now (S (now_calls w)))) d]> (objects w))
     (with_now_calls (S (S (now_calls w))) w)).
Proof.
  intros Hloc Hb.
  unfold save_store, now, object_setitem, read_object, collection_save.
  unfold bind, gets, modify, log, ret. cbn. rewrite Hloc. cbn.
  rewrite Hb. reflexivity.
Qed.

Lemma old_references_pure d :
  ∃ r, ∀ w, old_references d w = (r, w).
Proof.
  unfold old_references. destruct (dict_get "_npObjectIDs" d) as [v|].
  - destruct (as_oid_list v); eexists; reflexivity.
  - eexists; reflexivity.
Qed.

Lemma save_setup_spec loc d w :
  objects w !! loc = Some d →
  (∃ old, old_references d w = (Ok old, w)
          ∧ save_setup loc w = (Ok d, with_temp_new [] (with_temp_old old w)))
  ∨ (∃ e, old_references d w = (Raise e, w) ∧ save_setup loc w = (Raise e, w)).
Proof.
  intros Hloc. destruct (old_references_pure d) as [[old|e] Hr].
  - left. exists old. split; [apply Hr|].
    unfold save_setup, read_object, deepcopy, bind. rewrite Hloc, Hr. reflexivity.
  - right. exists e. split; [apply Hr|].
    unfold save_setup, read_object, deepcopy, bind. rewrite Hloc, Hr. reflexivity.
Qed.

(** The rest of [save_doc] after the encode pass, when the encoder takes
    the document. *)
Lemma save_finish_returns loc d docCopy w :
  objects w !! loc = Some d →
  let refs := reference_list (temp_newNpObjectIds w) in
  let stored :=
    dict_set "insertion_date" (VDatetime (datetime_now (now_calls w)))
      (dict_set "_npObjectIDs" refs docCopy) in
  let id := saved_id stored w in
  bson_error stored = None →
  ∃ w',
    save_finish loc docCopy w = (Ok id, w')
    ∧ fs w' = delete_all (temp_oldNpObjectIDs w) (fs w)
    ∧ calls w' = calls w ++ (FsDelete <$> temp_oldNpObjectIDs w) ++ [CollectionSave id]
    ∧ objects w' =
        <[loc := dict_set "_id" id
                   (dict_set "insertion_date" (VDatetime (datetime_now (S (now_calls w))))
                      (dict_set "_npObjectIDs" refs d))]> (objects w)
    ∧ collection w' =
        match dict_get "_id" stored with
        | Some id => upsert (has_id id) stored (collection w)
        | None => collection w ++ [dict_set "_id" id stored]
        end
    ∧ temp_oldNpObjectIDs w' = []
    ∧ temp_newNpObjectIds w' = temp_newNpObjectIds w
    ∧ next_oid w' = match dict_get "_id" stored with
                    | Some _ => next_oid w
                    | None => S (next_oid w)
                    end
    ∧ now_calls w' = S (S (now_calls w)).
Proof.
  intros Hloc refs stored id Hb.
  unfold save_finish. unfold bind at 1.
  rewrite (save_attach_spec _ _ _ _ Hloc). fold refs.
  unfold bind at 1. rewrite save_cleanup_spec.
  match goal with |- context [save_store loc ?dc ?w1] =>
    destruct (save_store_returns loc (dict_set "_npObjectIDs" refs d) dc w1)
      as (w' & Hs & Hfs & Hcalls & Hobj & Hcoll & Hold & Hnew & Hnext & Hnow)
  end.
  { cbn. apply lookup_insert_eq. }
  { exact Hb. }
  cbn in Hs, Hfs, Hcalls, Hobj, Hcoll, Hold, Hnew, Hnext, Hnow.
  exists w'. split; [exact Hs|].
  rewrite Hfs, Hcalls, Hobj, Hcoll, Hold, Hnew, Hnext, Hnow, insert_insert_eq,
    <- app_assoc.
  repeat split.
Qed.

(** The rest of [save_doc] after the encode pass, when the encoder refuses
    the document: [collection.save] raises after the new list was written
    into the caller's dict, after the files left on the old list were
    deleted, and after the caller's dict got its 'insertion_date'. *)
Lemma save_finish_raises loc d docCopy w e :
  objects w !! loc = Some d →
  let refs := reference_list (temp_newNpObjectIds w) in
  let stored :=
    dict_set "insertion_date" (VDatetime (datetime_now (now_calls w)))
      (dict_set "_npObjectIDs" refs docCopy) in
  bson_error stored = Some e →
  ∃ w',
    save_finish loc docCopy w = (Raise e, w')
    ∧ fs w' = delete_all (temp_oldNpObjectIDs w) (fs w)
    ∧ calls w' = calls w ++ (FsDelete <$> temp_oldNpObjectIDs w)
    ∧ objects w' =
        <[loc := dict_set "insertion_date" (VDatetime (datetime_now (S (now_calls w))))
                   (dict_set "_npObjectIDs" refs d)]> (objects w)
    ∧ collection w' = collection w
    ∧ temp_oldNpObjectIDs w' = []
    ∧ temp_newNpObjectIds w' = temp_newNpObjectIds w
    ∧ next_oid w' = next_oid w
    ∧ now_calls w' = S (S (now_calls w)).
Proof.
  intros Hloc refs stored Hb.
  unfold save_finish. unfold bind at 1.
  rewrite (save_attach_spec _ _ _ _ Hloc). fold refs.
  unfold bind at 1. rewrite save_cleanup_spec.
  match goal with |- context [save_store loc ?dc ?w1] =>
    rewrite (save_store_raises loc (dict_set "_npObjectIDs" refs d) dc w1 e)
  end.
  - eexists. split; [reflexivity|]. cbn. rewrite insert_insert_eq.
    repeat split.
  - cbn. apply lookup_insert_eq.
  - exact Hb.
Qed.

(** The rest of [save_doc] after the encode pass, when it returned. *)
Lemma save_finish_spec loc d docCopy w id0 w0 :
  objects w !! loc = Some d →
  save_finish loc docCopy w = (Ok id0, w0) →
  let refs := reference_list (temp_newNpObjectIds w) in
  let stored :=
    dict_set "insertion_date" (VDatetime (datetime_now (now_calls w)))
      (dict_set "_npObjectIDs" refs docCopy) in
  let id := saved_id stored w in
  ∃ w',
    save_finish loc docCopy w = (Ok id, w')
    ∧ fs w' = delete_all (temp_oldNpObjectIDs w) (fs w)
    ∧ calls w' = calls w ++ (FsDelete <$> temp_oldNpObjectIDs w) ++ [CollectionSave id]
    ∧ objects w' =
        <[loc := dict_set "_id" id
                   (dict_set "insertion_date" (VDatetime (datetime_now (S (now_calls w))))
                      (dict_set "_npObjectIDs" refs d))]> (objects w)
    ∧ collection w' =
        match dict_get "_id" stored with
        | Some id => upsert (has_id id) stored (collection w)
        | None => collection w ++ [dict_set "_id" id stored]
        end
    ∧ temp_oldNpObjectIDs w' = []
    ∧ temp_newNpObjectIds w' = temp_newNpObjectIds w.
Proof.
  intros Hloc Hfin refs stored id.
  destruct (bson_error stored) as [e|] eqn:Hb.
  - destruct (save_finish_raises loc d docCopy w e Hloc Hb) as (w' & H & _).
    congruence.
  - destruct (save_finish_returns loc d docCopy w Hloc Hb)
      as (w' & H & Hfs & Hcalls & Hobj & Hcoll & Hold & Hnew & _).
    exists w'. repeat split; assumption.
Qed.

(** The whole of [save_doc] on a caller object that exists, by the outcome
    of its steps. *)
Lemma save_doc_inv loc d w r w' :
  objects w !! loc = Some d →
  save_doc loc w = (r, w') →
  (∃ e, r = Raise e ∧ objects w' = objects w ∧ collection w' = collection w)
  ∨ (∃ old d1 w1,
       old_references d w = (Ok old, w)
       ∧ _stashNPArrays d (with_temp_new [] (with_temp_old old w)) = (Ok d1, w1)
       ∧ objects w1 !! loc = Some d
       ∧ save_finish loc d1 w1 = (r, w')).
Proof.
  intros Hloc H. rewrite save_doc_unfold in H.
  destruct (save_setup_spec _ _ w Hloc) as [(old & Hold & Hs)|(e & _ & Hs)].
  - rewrite (bind_ok _ _ _ _ _ Hs) in H.
    destruct (_stashNPArrays d (with_temp_new [] (with_temp_old old w)))
      as [[d1|e] w1] eqn:Hst.
    + rewrite (bind_ok _ _ _ _ _ Hst) in H.
      apply _stashNPArrays_rel in Hst as HR. destruct HR.
      right. exists old, d1, w1. repeat split; auto.
      rewrite sr_objects0. exact Hloc.
    + rewrite (bind_raise _ _ _ _ _ Hst) in H. inversion H; subst.
      apply _stashNPArrays_rel in Hst as []. left. eauto.
  - rewrite (bind_raise _ _ _ _ _ Hs) in H. inversion H; subst. left. eauto.
Qed.

(** The rest of [save_doc] after the encode pass, when it returned: the
    encoder took the document, and the state is this. *)
Lemma save_finish_inv loc d docCopy w id w' :
  objects w !! loc = Some d →
  save_finish loc docCopy w = (Ok id, w') →
  let refs := reference_list (temp_newNpObjectIds w) in
  let stored :=
    dict_set "insertion_date" (VDatetime (datetime_now (now_calls w)))
      (dict_set "_npObjectIDs" refs docCopy) in
  bson_error stored = None
  ∧ id = saved_id stored w
  ∧ fs w' = delete_all (temp_oldNpObjectIDs w) (fs w)
  ∧ objects w' =
      <[loc := dict_set "_id" id
                 (dict_set "insertion_date" (VDatetime (datetime_now (S (now_calls w))))
                    (dict_set "_npObjectIDs" refs d))]> (objects w)
  ∧ collection w' =
      match dict_get "_id" stored with
      | Some id => upsert (has_id id) stored (collection w)
      | None => collection w ++ [dict_set "_id" id stored]
      end
  ∧ next_oid w' = match dict_get "_id" stored with
                  | Some _ => next_oid w
                  | None => S (next_oid w)
                  end.
Proof.
  intros Hloc Hfin refs stored.
  destruct (bson_error stored) as [e|] eqn:Hb.
  - destruct (save_finish_raises loc d docCopy w e Hloc Hb) as (w2 & H & _).
    congruence.
  - destruct (save_finish_returns loc d docCopy w Hloc Hb)
      as (w2 & H & Hfs & _ & Hobj & Hcoll & _ & _ & Hnext & _).
    cbn zeta in H, Hobj, Hcoll. rewrite Hfin in H. injection H as -> ->.
    repeat split; assumption.
Qed.

(** The outcome of the rest of [save_doc] is the encoder's. *)
Lemma save_finish_outcome loc d docCopy w :
  objects w !! loc = Some d →
  let stored :=
    dict_set "insertion_date" (VDatetime (datetime_now (now_calls w)))
      (dict_set "_npObjectIDs" (reference_list (temp_newNpObjectIds w)) docCopy) in
  (save_finish loc docCopy w).1 =
  match bson_error stored with
  | Some e => Raise e
  | None => Ok (saved_id stored w)
  end.
Proof.
  intros Hloc stored. destruct (bson_error stored) as [e|] eqn:Hb.
  - destruct (save_finish_raises loc d docCopy w e Hloc Hb) as (w' & -> & _).
    reflexivity.
  - destruct (save_finish_returns loc d docCopy w Hloc Hb) as (w' & -> & _).
    reflexivity.
Qed.


Lemma upsert_elem (p : list (string * value) → bool) d c : d ∈ upsert p d c.
Proof.
  induction c as [|x c IH]; cbn; [set_solver|].
  destruct (p x); set_solver.
Qed.

(** C1, as the code has it.  The calls one successful [save] of a document
    makes are, in this order: the [fs.put]s of the encode pass; one
    [fs.delete] for each reference the encode pass left on the old list (the
    orphans); and last the one [collection.save].  Every orphan is deleted
    before the document is stored, none after. *)
Theorem save_deletes_orphans_before_upsert loc d w id w' :
  objects w !! loc = Some d →
  save_doc loc w = (Ok id, w') →
  puts_then_deletes_then_upsert d w id w'.
Proof.
  intros Hloc H.
  destruct (save_doc_inv _ _ _ _ _ Hloc H)
    as [(e & [=] & _)|(old & d1 & w1 & Hold & Hst & Hloc1 & Hfin)].
  exists old, d1, w1. split; [exact Hold|]. split; [exact Hst|].
  destruct (save_finish_spec loc d d1 w1 _ _ Hloc1 Hfin)
    as (w2 & Hfin' & Hfs & Hcalls & _).
  cbn zeta in Hfin', Hcalls. rewrite Hfin in Hfin'.
  injection Hfin' as Hid Hw. subst w2. rewrite <- Hid in Hcalls.
  split; [exact Hfs|].
  apply _stashNPArrays_rel in Hst as [].
  unfold calls_since. rewrite Hcalls, sr_calls0. cbn.
  by rewrite <- app_assoc, drop_app_length.
Qed.


End SaveSteps.

(** ** [delete] *)

Section Delete.
Context {E : Externals}.

(** C6, as the code has it.  [delete] of an identity no document of the
    collection has raises [TypeError], from indexing the [None] that
    [find_one] returned, and changes nothing: no file leaves GridFS, no
    document leaves the collection, no call is made. *)
Theorem delete_missing_raises_TypeError objectId w :
  Forall (λ d, has_id objectId d = false) (collection w) →
  delete objectId w = (Raise TypeError, w).
Proof.
  intros Hnone. unfold delete, collection_find_one, bind, gets.
  replace (filter (λ d, has_id objectId d = true) (collection w)) with ([] : list (list (string * value))).
  - reflexivity.
  - symmetry. induction Hnone as [|d c Hd _ IH]; [done|].
    rewrite filter_cons_False by congruence. exact IH.
Qed.

End Delete.

(** ** Following a path of keys through a pass *)

Section Paths.
Context {E : Externals}.

Variable f : string → value → M value.
Variable R : world → world → Prop.
Hypothesis f_dict : ∀ key d w,
  f key (VDict d) w = bind (for_items f d) (λ d', ret (VDict d')) w.
Hypothesis R_refl : ∀ w, R w w.
Hypothesis R_trans : ∀ w1 w2 w3, R w1 w2 → R w2 w3 → R w1 w3.
Hypothesis f_R : ∀ k v w r w', f k v w = (r, w') → R w w'.

Lemma for_items_R d w r w' : for_items f d w = (r, w') → R w w'.
Proof.
  apply for_items_rel; auto. apply Forall_forall. intros kv _ k. apply f_R.
Qed.

(** The entry under a key is rewritten by one call of the loop body, and
    the result is what the key holds afterwards. *)
Lemma for_items_get key d : ∀ x w d' w',
  dict_get key d = Some x →
  for_items f d w = (Ok d', w') →
  ∃ w1 w2 x',
    f key x w1 = (Ok x', w2) ∧ dict_get key d' = Some x' ∧ R w w1 ∧ R w2 w'.
Proof.
  induction d as [|[k y] d IH]; intros x w d' w' Hget H; [done|].
  cbn in Hget, H.
  apply bind_inv in H as [(y' & wa & Hy & H)|(e & _ & [=])].
  apply bind_inv in H as [(r' & wb & Hrest & H)|(e & _ & [=])].
  inversion H; subst. cbn.
  destruct (String.eqb_spec k key) as [->|Hne].
  - inversion Hget; subst. exists w, wa, y'. repeat split; auto.
    eapply for_items_R; eauto.
  - destruct (IH _ _ _ _ Hget Hrest) as (w1 & w2 & x' & Hf & Hg & HR1 & HR2).
    exists w1, w2, x'. repeat split; auto.
    eapply R_trans; [|exact HR1]. eapply f_R; eauto.
Qed.

(** The same along a path: the value at the end of the path is rewritten by
    one call of the loop body, under the last key of the path. *)
Lemma for_items_path path : ∀ doc v w doc' w',
  path ≠ [] →
  get_path path (VDict doc) = Some v →
  for_items f doc w = (Ok doc', w') →
  ∃ key w1 w2 v',
    last path = Some key ∧ f key v w1 = (Ok v', w2)
    ∧ get_path path (VDict doc') = Some v' ∧ R w w1 ∧ R w2 w'.
Proof.
  induction path as [|key path IH]; intros doc v w doc' w' Hne Hget H; [done|].
  cbn in Hget. destruct (dict_get key doc) as [x|] eqn:Hx; [|done].
  destruct (for_items_get _ _ _ _ _ _ Hx H) as (w1 & w2 & x' & Hf & Hg & HR1 & HR2).
  destruct path as [|key2 path].
  - cbn in Hget. inversion Hget; subst.
    exists key, w1, w2, x'. cbn. rewrite Hg. repeat split; auto.
  - destruct x as [| | | | | | | | | | |d2]; try done.
    rewrite f_dict in Hf.
    apply bind_inv in Hf as [(d2' & wa & Hd2 & Hf)|(e & _ & [=])].
    inversion Hf; subst.
    destruct (IH d2 v w1 d2' w2) as (k' & wa & wb & v' & Hl & Hfv & Hgv & HRa & HRb);
      [done|exact Hget|exact Hd2|].
    exists k', wa, wb, v'. repeat split; eauto.
    change (get_path (key :: key2 :: path) (VDict doc'))
      with (match dict_get key doc' with
            | Some x => get_path (key2 :: path) x
            | None => None
            end).
    rewrite Hg. exact Hgv.
Qed.

End Paths.

Section PathsOfPasses.
Context {E : Externals}.

Lemma stash_path path doc v w doc' w' :
  path ≠ [] →
  get_path path (VDict doc) = Some v →
  _stashNPArrays doc w = (Ok doc', w') →
  ∃ key w1 w2 v',
    last path = Some key ∧ stash_entry key v w1 = (Ok v', w2)
    ∧ get_path path (VDict doc') = Some v' ∧ stash_rel w w1 ∧ stash_rel w2 w'.
Proof.
  apply (for_items_path stash_entry stash_rel).
  - reflexivity.
  - apply stash_rel_refl.
  - apply stash_rel_trans.
  - intros k x. apply stash_entry_rel.
Qed.

Lemma load_path path doc v w doc' w' :
  path ≠ [] →
  get_path path (VDict doc) = Some v →
  _loadNPArrays doc w = (Ok doc', w') →
  ∃ key v',
    last path = Some key ∧ load_entry key v w = (Ok v', w)
    ∧ get_path path (VDict doc') = Some v'.
Proof.
  intros Hne Hget H.
  destruct (for_items_path load_entry (λ w w', w' = w)
              ltac:(reflexivity) ltac:(done) ltac:(congruence)
              ltac:(intros k x; apply load_entry_reads)
              path doc v w doc' w' Hne Hget H)
    as (key & w1 & w2 & v' & Hl & Hf & Hg & -> & Hw).
  pose proof (load_entry_reads _ _ _ _ _ Hf) as Hw2.
  exists key, v'. repeat split; congruence.
Qed.

End PathsOfPasses.




(** ** The decode pass as a function of GridFS *)

Section Decode.
Context {E : Externals}.

Lemma for_items_map_items (f : string → value → M value) g d w :
  Forall (λ kv, ∀ k, f k kv.2 w = (g k kv.2, w)) d →
  for_items f d w = (map_items g d, w).
Proof.
  induction 1 as [|[k v] d Hv _ IH]; [reflexivity|].
  cbn. unfold bind at 1. rewrite Hv. cbn.
  destruct (g k v) as [v'|e]; [|reflexivity].
  unfold bind at 1. rewrite IH.
  destruct (map_items g d); reflexivity.
Qed.

Lemma load_entry_decode v : ∀ key w,
  load_entry key v w = (decode_entry (fs w) key v, w).
Proof.
  induction v as [| | | | | |o| | | |l _|d IH] using value_nested_ind;
    intros key w; try reflexivity.
  - cbn. destruct (String.eqb key "_id"); [reflexivity|].
    unfold bind, fs_get, _binary2npArray.
    destruct (fs w !! o) as [b|]; [|reflexivity].
    destruct (pickle_loads b); reflexivity.
  - cbn. unfold bind.
    rewrite (for_items_map_items load_entry (decode_entry (fs w))).
    + destruct (map_items _ d); reflexivity.
    + eapply Forall_impl; [exact IH|]. cbn. intros kv Hkv k. apply Hkv.
Qed.

Lemma _loadNPArrays_decode doc w :
  _loadNPArrays doc w = (map_items (decode_entry (fs w)) doc, w).
Proof.
  apply for_items_map_items. apply Forall_forall. intros kv _ k.
  apply load_entry_decode.
Qed.

End Decode.

(** ** The two lists of the wrapper *)

Section Accumulators.
Context {E : Externals}.

(** A thread that is given all five steps in a row does what [save_doc]
    does. *)
Lemma run_schedule_alone loc w :
  run_schedule [0; 0; 0; 0; 0] [AtSetup loc] w =
  ([thread_of_outcome (save_doc loc w).1], (save_doc loc w).2).
Proof.
  unfold save_doc, bind. cbn [run_schedule lookup list_lookup thread_step].
  unfold advance at 1.
  destruct (save_setup loc w) as [[d0|e] w0]; [|reflexivity].
  cbn [run_schedule lookup list_lookup thread_step list_insert insert].
  unfold advance at 1.
  destruct (_stashNPArrays d0 w0) as [[d1|e] w1]; [|reflexivity].
  cbn [run_schedule lookup list_lookup thread_step list_insert insert].
  unfold advance at 1.
  destruct (save_attach loc d1 w1) as [[d2|e] w2]; [|reflexivity].
  cbn [run_schedule lookup list_lookup thread_step list_insert insert].
  unfold advance at 1.
  destruct (save_cleanup w2) as [[[]|e] w3]; [|reflexivity].
  cbn [run_schedule lookup list_lookup thread_step list_insert insert].
  unfold advance at 1.
  destruct (save_store loc d2 w3) as [[id|e] w4]; reflexivity.
Qed.

(** C8, as the code has it.  The old and the new list are two fields of the
    wrapper, which every [save] on it reads and writes.  [save] sets both
    anew before the encode pass of each document, so a [save] that runs from
    its first step to its last returns the same and leaves the two stores
    and the caller's objects the same whatever an earlier call left in the
    two fields; when its set-up succeeds the whole final state is the same.
    The decode pass uses neither field: it returns what the files of GridFS
    determine and changes nothing. *)
Theorem save_resets_shared_lists loc d w old new :
  objects w !! loc = Some d →
  let w0 := with_temp_new new (with_temp_old old w) in
  (save_doc loc w0).1 = (save_doc loc w).1
  ∧ fs (save_doc loc w0).2 = fs (save_doc loc w).2
  ∧ collection (save_doc loc w0).2 = collection (save_doc loc w).2
  ∧ objects (save_doc loc w0).2 = objects (save_doc loc w).2
  ∧ (∀ refs, old_references d w = (Ok refs, w) → save_doc loc w0 = save_doc loc w)
  ∧ (∀ doc, _loadNPArrays doc w0 = ((_loadNPArrays doc w).1, w0)).
Proof.
  intros Hloc w0.
  assert (∀ doc, _loadNPArrays doc w0 = ((_loadNPArrays doc w).1, w0)) as Hload.
  { intros doc. rewrite !_loadNPArrays_decode. reflexivity. }
  assert (objects w0 !! loc = Some d) as Hloc0 by exact Hloc.
  destruct (save_setup_spec _ _ w Hloc) as [(refs & Hold & Hs)|(e & Hold & Hs)].
  - assert (save_doc loc w0 = save_doc loc w) as Heq.
    { destruct (save_setup_spec _ _ w0 Hloc0) as [(refs0 & Hold0 & Hs0)|(e & Hold0 & _)].
      - destruct (old_references_pure d) as [r Hr].
        rewrite Hr in Hold, Hold0. injection Hold as ->. injection Hold0 as Heq.
        subst refs0.
        rewrite !save_doc_unfold.
        rewrite (bind_ok _ _ _ _ _ Hs), (bind_ok _ _ _ _ _ Hs0).
        reflexivity.
      - destruct (old_references_pure d) as [r Hr].
        rewrite Hr in Hold, Hold0. congruence. }
    rewrite Heq. repeat split; auto.
  - assert (save_doc loc w = (Raise e, w)) as ->.
    { rewrite save_doc_unfold. by rewrite (bind_raise _ _ _ _ _ Hs). }
    assert (save_doc loc w0 = (Raise e, w0)) as ->.
    { destruct (save_setup_spec _ _ w0 Hloc0) as [(refs0 & Hold0 & _)|(e0 & Hold0 & Hs0)].
      - destruct (old_references_pure d) as [r Hr].
        rewrite Hr in Hold, Hold0. congruence.
      - destruct (old_references_pure d) as [r Hr].
        rewrite Hr in Hold, Hold0.
        rewrite save_doc_unfold, (bind_raise _ _ _ _ _ Hs0). congruence. }
    repeat split; auto.
    intros refs Hrefs. rewrite Hold in Hrefs. discriminate.
Qed.

End Accumulators.

(** ** What deduplication compares with *)

Section Dedup.
Context {E : Externals}.

Lemma list_remove_subseteq x l : list_remove x l ⊆ l.
Proof. apply sublist_subseteq, list_remove_sublist. Qed.














End Dedup.

(** ** Saving and loading again *)

Section RoundTrip.
Context {E : Externals}.
Variable P : ndarray → Prop.

Lemma encode_ready_rel w w' : encode_ready P w → stash_rel w w' → encode_ready P w'.
Proof.
  intros [Hb Hn Ht Hm] HR.
  assert (∀ o, o ∈ temp_oldNpObjectIDs w' →
            o ∈ temp_oldNpObjectIDs w ∧ fs w' !! o = fs w !! o) as Hold.
  { intros o Ho. eapply sublist_subseteq in Ho; [|apply (sr_old _ _ HR)].
    split; [exact Ho|]. apply (sr_fs_below _ _ HR). auto. }
  split.
  - intros o Ho. destruct (decide (o < next_oid w')) as [|Hge]; [done|].
    rewrite (sr_fs_above _ _ HR) in Ho by lia.
    apply Hb in Ho. pose proof (sr_next _ _ HR). lia.
  - eapply sublist_NoDup; [exact Hn|apply (sr_old _ _ HR)].
  - intros o Ho. destruct (Hold o Ho) as [Ho' ->]. auto.
  - intros o b a Ho Hfs. destruct (Hold o Ho) as [Ho' Heq].
    rewrite Heq in Hfs. eauto.
Qed.

Lemma kept_file_rel w w' o a : kept_file w o a → stash_rel w w' → kept_file w' o a.
Proof.
  intros (Hf & Hlt & Hold) HR. split; [|split].
  - by rewrite (sr_fs_below _ _ HR).
  - pose proof (sr_next _ _ HR). lia.
  - intros Ho. apply Hold. eapply sublist_subseteq; [apply (sr_old _ _ HR)|exact Ho].
Qed.

Lemma list_remove_not_in x l : NoDup l → x ∉ list_remove x l.
Proof.
  induction 1 as [|y l Hy Hl IH]; cbn; [apply not_elem_of_nil|].
  destruct (Nat.eqb_spec y x) as [->|Hne]; [exact Hy|].
  intros [->|Hin]%elem_of_cons; [done|]. by apply IH.
Qed.

Lemma reuse_rel obj w :
  stash_rel w (with_temp_new (temp_newNpObjectIds w ++ [obj])
                 (with_temp_old (list_remove obj (temp_oldNpObjectIDs w)) w)).
Proof.
  split; cbn; auto.
  - rewrite Nat.sub_diag. cbn. by rewrite app_nil_r.
  - apply list_remove_sublist.
  - by apply prefix_app_r.
Qed.

(** The loop over the old list raises nothing when the files of the list
    are there, and what it hands back is what it was given or a file of the
    old list that has the digest sought and is on the list no more. *)
Lemma scan_old_spec n : ∀ i h found w r w',
  encode_ready P w →
  scan_old n i h found w = (r, w') →
  ∃ res, r = Ok res
    ∧ (res = found
       ∨ ∃ obj b, res = Some obj ∧ (obj ∈ temp_oldNpObjectIDs w)
                  ∧ (obj ∉ temp_oldNpObjectIDs w')
                  ∧ fs w !! obj = Some b ∧ h = md5_hexdigest b).
Proof.
  induction n as [|n IH]; intros i h found w r w' HE H; cbn [scan_old] in H.
  - inversion H; subst. eauto.
  - unfold bind at 1, gets in H.
    destruct (temp_oldNpObjectIDs w !! i) as [obj|] eqn:Hi;
      [|inversion H; subst; eauto].
    assert (obj ∈ temp_oldNpObjectIDs w) as Hin
      by (eapply list_elem_of_lookup_2; eauto).
    destruct (er_there _ _ HE obj Hin) as [b Hb].
    unfold bind at 1, fs_get in H. rewrite Hb in H.
    destruct (decide (h = md5_hexdigest b)) as [Hh|Hh]; [|eauto].
    unfold bind at 1, modify in H. unfold bind at 1, modify in H.
    pose proof (reuse_rel obj w) as HR.
    pose proof (scan_old_rel _ _ _ _ _ _ _ H) as [HR' _].
    destruct (IH _ _ _ _ _ _ (encode_ready_rel _ _ HE HR) H)
      as (res & -> & [->|(obj2 & b2 & -> & Hin2 & Hout2 & Hb2 & Hh2)]).
    + eexists. split; [reflexivity|]. right. exists obj, b.
      repeat split; auto.
      intros Hobj. eapply sublist_subseteq in Hobj; [|apply (sr_old _ _ HR')].
      cbn in Hobj. revert Hobj. apply list_remove_not_in, (er_nodup _ _ HE).
    + eexists. split; [reflexivity|]. right. exists obj2, b2.
      repeat split; auto.
      cbn in Hin2. by apply list_remove_subseteq in Hin2.
Qed.

(** The file that takes an array's place holds the array and is kept. *)
Lemma stash_array_spec a w r w' :
  encode_ready P w → P a →
  stash_array a w = (r, w') →
  ∃ o, r = Ok o ∧ kept_file w' o a.
Proof.
  intros HE HP H. unfold stash_array in H.
  unfold bind at 1, gets in H.
  apply bind_inv in H as [(found & w1 & H1 & H)|(e & H1 & ->)].
  2:{ destruct (scan_old_spec _ _ _ _ _ _ _ HE H1) as (res & [=] & _). }
  pose proof (scan_old_rel _ _ _ _ _ _ _ H1) as [HR Hnext].
  destruct (scan_old_spec _ _ _ _ _ _ _ HE H1)
    as (res & [= <-] & [->|(obj & b & -> & Hin & Hout & Hb & Hh)]).
  - unfold fs_put, bind, gets, modify, log, ret in H. cbn in H.
    inversion H; subst. eexists. split; [reflexivity|].
    split; [|split]; cbn.
    + apply lookup_insert_eq.
    + lia.
    + intros Hin. eapply sublist_subseteq in Hin; [|apply (sr_old _ _ HR)].
      apply (er_there _ _ HE), (er_below _ _ HE) in Hin. lia.
  - inversion H; subst. eexists. split; [reflexivity|].
    split; [|split].
    + rewrite (sr_fs_below _ _ HR).
      * rewrite Hb. f_equal. eapply (er_md5 _ _ HE); eauto.
      * apply (er_below _ _ HE). by rewrite Hb.
    + pose proof (sr_next _ _ HR).
      assert (obj < next_oid w); [|lia].
      apply (er_below _ _ HE). by rewrite Hb.
    + exact Hout.
Qed.

Lemma encoded_mono (L L' : nat → ndarray → Prop) :
  (∀ o a, L o a → L' o a) →
  ∀ x x', encoded L x x' → encoded L' x x'.
Proof.
  intros HL x.
  induction x as [| | | | | | |a| | |l _|d IH] using value_nested_ind;
    intros x' H; cbn in *; auto.
  - destruct H as (o & -> & Ho). eauto.
  - destruct H as (d' & -> & Hd). exists d'. split; [reflexivity|].
    revert d' Hd. induction IH as [|[k x] d Hx _ IHd]; intros [|[k' x'] d'] Hd;
      cbn in *; try done.
    destruct Hd as (-> & Hx' & Hd). auto.
Qed.

Lemma encoded_items_mono (L L' : nat → ndarray → Prop) d d' :
  (∀ o a, L o a → L' o a) →
  encoded_items (encoded L) d d' → encoded_items (encoded L') d d'.
Proof.
  intros HL Hd.
  destruct (encoded_mono L L' HL (VDict d) (VDict d')) as (d'' & [= <-] & H).
  - cbn. eauto.
  - exact H.
Qed.

Lemma arrays_of_items_app f k x d :
  arrays_of_items f ((k, x) :: d) = f x ++ arrays_of_items f d.
Proof. reflexivity. Qed.

Lemma for_items_encoded d :
  Forall (λ kv, ∀ k w r w',
            encode_ready P w → (∀ a, a ∈ arrays_of_value kv.2 → P a) →
            stash_entry k kv.2 w = (r, w') →
            ∃ x', r = Ok x' ∧ encoded (kept_file w') kv.2 x') d →
  ∀ w r w',
    encode_ready P w → (∀ a, a ∈ arrays_of_items arrays_of_value d → P a) →
    for_items stash_entry d w = (r, w') →
    ∃ d', r = Ok d' ∧ encoded_items (encoded (kept_file w')) d d'.
Proof.
  induction 1 as [|[k x] d Hx _ IH]; intros w r w' HE HP H; cbn [for_items] in H.
  - inversion H; subst. by exists [].
  - rewrite arrays_of_items_app in HP.
    apply bind_inv in H as [(x' & w1 & H1 & H)|(e & H1 & ->)].
    2:{ destruct (Hx k _ _ _ HE ltac:(set_solver) H1) as (? & [=] & _). }
    pose proof (stash_entry_rel _ _ _ _ _ H1) as HR1.
    destruct (Hx k _ _ _ HE ltac:(set_solver) H1) as (? & [= <-] & Henc).
    apply bind_inv in H as [(d' & w2 & H2 & H)|(e & H2 & ->)].
    2:{ destruct (IH _ _ _ (encode_ready_rel _ _ HE HR1) ltac:(set_solver) H2)
          as (? & [=] & _). }
    pose proof (_stashNPArrays_rel _ _ _ _ H2) as HR2.
    destruct (IH _ _ _ (encode_ready_rel _ _ HE HR1) ltac:(set_solver) H2)
      as (? & [= <-] & Hencs).
    inversion H; subst. eexists. split; [reflexivity|].
    cbn. split; [reflexivity|]. split; [|exact Hencs].
    revert Henc. apply encoded_mono. intros o a Hk. by eapply kept_file_rel.
Qed.

Lemma stash_entry_encoded x : ∀ k w r w',
  encode_ready P w → (∀ a, a ∈ arrays_of_value x → P a) →
  stash_entry k x w = (r, w') →
  ∃ x', r = Ok x' ∧ encoded (kept_file w') x x'.
Proof.
  induction x as [| | | | | | |a| | |l _|d IH] using value_nested_ind;
    intros k w r w' HE HP H; cbn [stash_entry] in H;
    try (inversion H; subst; eexists; split; reflexivity).
  - apply bind_inv in H as [(o & w1 & H1 & H)|(e & H1 & ->)].
    + destruct (stash_array_spec _ _ _ _ HE (HP a ltac:(set_solver)) H1)
        as (? & [= <-] & Hk).
      inversion H; subst. eexists. split; [reflexivity|]. cbn. eauto.
    + destruct (stash_array_spec _ _ _ _ HE (HP a ltac:(set_solver)) H1)
        as (? & [=] & _).
  - apply bind_inv in H as [(d' & w1 & H1 & H)|(e & H1 & ->)].
    + destruct (for_items_encoded d IH _ _ _ HE HP H1) as (? & [= <-] & Hd).
      inversion H; subst. eexists. split; [reflexivity|]. cbn. eauto.
    + destruct (for_items_encoded d IH _ _ _ HE HP H1) as (? & [=] & _).
Qed.

Lemma _stashNPArrays_encoded doc w r w' :
  encode_ready P w → (∀ a, a ∈ arrays_of doc → P a) →
  _stashNPArrays doc w = (r, w') →
  ∃ doc', r = Ok doc' ∧ encoded_items (encoded (kept_file w')) doc doc'.
Proof.
  apply for_items_encoded. apply Forall_forall. intros kv _.
  apply stash_entry_encoded.
Qed.

End RoundTrip.

Section LoadAfterSave.
Context {E : Externals}.

Lemma lookup_delete_all l : ∀ (f : gmap nat bytes) o,
  o ∉ l → delete_all l f !! o = f !! o.
Proof.
  induction l as [|x l IH]; intros f o Ho; [reflexivity|].
  change (delete_all l (base.delete x f) !! o = f !! o).
  rewrite IH by set_solver. apply lookup_delete_ne. set_solver.
Qed.

(** The decode pass succeeds on what the encode pass made of a clean
    value, when the files hold what the encoding says and pickle gives back
    what it was given. *)
Lemma decode_encoded (files : gmap nat bytes) :
  (∀ a, pickle_loads (pickle_dumps a) = Some (VNdarray a)) →
  ∀ x k x',
    encoded (λ o a, files !! o = Some (pickle_dumps a)) x x' →
    clean k x →
    ∃ y, decode_entry files k x' = Ok y.
Proof.
  intros Hpickle x.
  induction x as [| | | | | |o|a| | |l _|d IH] using value_nested_ind;
    intros k x' Henc Hclean; cbn in Henc, Hclean;
    try (subst x'; eexists; reflexivity).
  - subst x' k. eexists. reflexivity.
  - destruct Henc as (o & -> & Ho). cbn.
    destruct (String.eqb k "_id"); [eauto|].
    rewrite Ho, Hpickle. eauto.
  - destruct Henc as (d' & -> & Hd). cbn.
    assert (∃ y, map_items (decode_entry files) d' = Ok y) as [y Hy].
    { revert d' Hd Hclean.
      induction IH as [|[k0 x0] d Hx _ IHd]; intros [|[k0' x0'] d'] Hd Hc;
        cbn in Hd, Hc; try done.
      - by exists [].
      - destruct Hd as (<- & Hx0 & Hd), Hc as [Hc0 Hc].
        destruct (Hx _ _ Hx0 Hc0) as [y0 Hy0].
        destruct (IHd _ Hd Hc) as [y Hy].
        cbn. rewrite Hy0, Hy. eauto. }
    rewrite Hy. eauto.
Qed.

Lemma decode_encoded_items (files : gmap nat bytes) d d' :
  (∀ a, pickle_loads (pickle_dumps a) = Some (VNdarray a)) →
  encoded_items (encoded (λ o a, files !! o = Some (pickle_dumps a))) d d' →
  clean_items clean d →
  ∃ y, map_items (decode_entry files) d' = Ok y.
Proof.
  intros Hpickle Hd Hc.
  destruct (decode_encoded files Hpickle (VDict d) "" (VDict d')) as [y Hy].
  - cbn. eauto.
  - exact Hc.
  - cbn in Hy. destruct (map_items _ d'); [eauto|discriminate].
Qed.

Lemma map_items_Ok g d :
  (∀ k x, (k, x) ∈ d → ∃ y, g k x = Ok y) → ∃ d', map_items g d = Ok d'.
Proof.
  induction d as [|[k x] d IH]; intros H; cbn; [eauto|].
  destruct (H k x) as [y ->]; [apply elem_of_cons; by left|].
  destruct IH as [d' ->]; [|eauto].
  intros k' x' Hin. apply H, elem_of_cons. by right.
Qed.

Lemma map_items_Ok_inv g d d' :
  map_items g d = Ok d' → ∀ k x, (k, x) ∈ d → ∃ y, g k x = Ok y.
Proof.
  revert d'. induction d as [|[k0 x0] d IH]; intros d' H k x Hin; cbn in H.
  - by apply elem_of_nil in Hin.
  - destruct (g k0 x0) as [y0|] eqn:H0; [|done].
    destruct (map_items g d) as [r|] eqn:Hr; [|done].
    apply elem_of_cons in Hin as [[= -> ->]|Hin]; [eauto|].
    by eapply IH.
Qed.

Lemma elem_of_dict_replace k v d kx :
  kx ∈ dict_replace k v d → kx = (k, v) ∨ kx ∈ d.
Proof.
  induction d as [|[k0 x0] d IH]; cbn; [by intros ?%elem_of_nil|].
  destruct (String.eqb_spec k0 k) as [->|Hne].
  - intros [->|H]%elem_of_cons; [by left|]. right. apply elem_of_cons. by right.
  - intros [->|H]%elem_of_cons.
    + right. apply elem_of_cons. by left.
    + destruct (IH H) as [->|H']; [by left|].
      right. apply elem_of_cons. by right.
Qed.

Lemma elem_of_dict_set k v d kx :
  kx ∈ dict_set k v d → kx = (k, v) ∨ kx ∈ d.
Proof.
  unfold dict_set. destruct (dict_get k d).
  - apply elem_of_dict_replace.
  - rewrite dict_insert_items.
    intros [H| ->%list_elem_of_singleton]%elem_of_app; auto.
Qed.

Lemma map_items_dict_set g k v d :
  (∃ d', map_items g d = Ok d') → (∃ v', g k v = Ok v') →
  ∃ d', map_items g (dict_set k v d) = Ok d'.
Proof.
  intros [d' Hd] Hv. apply map_items_Ok. intros k0 x0 Hin.
  apply elem_of_dict_set in Hin as [[= -> ->]|Hin]; [exact Hv|].
  by eapply map_items_Ok_inv.
Qed.

Lemma filter_upsert (p : list (string * value) → bool) d c :
  p d = true →
  length (filter (λ x, p x = true) c) ≤ 1 →
  filter (λ x, p x = true) (upsert p d c) = [d].
Proof.
  intros Hd. induction c as [|x c IH]; intros Hlen; cbn [upsert].
  - by rewrite filter_cons_True, filter_nil.
  - destruct (p x) eqn:Hx.
    + rewrite filter_cons_True in Hlen by done. cbn [length] in Hlen.
      rewrite filter_cons_True by done. f_equal.
      apply nil_length_inv. lia.
    + rewrite filter_cons_False in Hlen by congruence.
      rewrite filter_cons_False by congruence. auto.
Qed.

Lemma filter_snoc_only (p : list (string * value) → bool) d c :
  p d = true →
  Forall (λ x, p x = false) c →
  filter (λ x, p x = true) (c ++ [d]) = [d].
Proof.
  intros Hd Hc. rewrite filter_app.
  replace (filter (λ x, p x = true) c) with ([] : list (list (string * value))).
  - rewrite app_nil_l. by rewrite filter_cons_True, filter_nil.
  - symmetry. induction Hc as [|x c Hx _ IH]; [done|].
    by rewrite filter_cons_False by congruence.
Qed.

Lemma path_array_in path : ∀ d a,
  get_path path (VDict d) = Some (VNdarray a) → a ∈ arrays_of d.
Proof.
  induction path as [|k path IH]; intros d a H; [done|].
  cbn in H. destruct (dict_get k d) as [x|] eqn:Hx; [|done].
  assert (a ∈ arrays_of_value x) as Hax.
  { destruct path as [|k2 path].
    - cbn in H. inversion H; subst. cbn. set_solver.
    - destruct x; try done. by apply IH. }
  clear H IH. unfold arrays_of.
  induction d as [|[k0 y] d IHd]; [done|]. cbn in Hx.
  rewrite arrays_of_items_app. apply elem_of_app.
  destruct (String.eqb k0 k); [left; congruence|right; auto].
Qed.

(** [load] by an identity that one stored document has. *)
Lemma load_single id w sx d' path o a key :
  (∀ a, pickle_loads (pickle_dumps a) = Some (VNdarray a)) →
  matches (has_id id) w = [sx] →
  map_items (decode_entry (fs w)) sx = Ok d' →
  get_path path (VDict sx) = Some (VObjectId o) →
  last path = Some key → key ≠ "_id" →
  fs w !! o = Some (pickle_dumps a) →
  load (has_id id) true w = (Ok (VDict d'), w)
  ∧ get_path path (VDict d') = Some (VNdarray a).
Proof.
  intros Hpickle Hm Hdec Hget Hlast Hkey Hfs.
  assert (_loadNPArrays sx w = (Ok d', w)) as Hload.
  { by rewrite _loadNPArrays_decode, Hdec. }
  split.
  - rewrite load_unfold, Hm. unfold list_comprehension, bind.
    rewrite Hload. reflexivity.
  - assert (path ≠ []) as Hne by (by destruct path).
    destruct (load_path _ _ _ _ _ _ Hne Hget Hload) as (key' & v' & Hl & Hv & Hg).
    rewrite Hlast in Hl. injection Hl as <-.
    cbn in Hv. apply String.eqb_neq in Hkey. rewrite Hkey in Hv.
    unfold bind, fs_get, _binary2npArray in Hv. rewrite Hfs, Hpickle in Hv.
    unfold ret in Hv. congruence.
Qed.

(** C7, as the code has it.  A document is saved and then loaded, with
    arrays, by the identity the save returned.  When pickle gives back what it
    was given, the stores are as the drivers keep them and the document may
    be saved, a [save] that returns is followed by a [load] that returns one
    document, and an array the caller's document held at the end of a path of
    keys through nested dicts is found, equal in element type, shape and
    elements, at the same path of the loaded document, provided the last key
    of the path is not '_id', which the decode pass skips, and its first key
    is not 'insertion_date', which the save overwrites.  Such a [save] raises
    only when [collection.save] does, for a document the encoder refuses. *)
Theorem load_after_save_restores_array loc d old path key a w :
  (∀ a, pickle_loads (pickle_dumps a) = Some (VNdarray a)) →
  store_ok w →
  objects w !! loc = Some d →
  document_ok w d old →
  get_path path (VDict d) = Some (VNdarray a) →
  last path = Some key → key ≠ "_id" →
  head path ≠ Some "insertion_date" →
  restores_array w loc path a.
Proof.
  intros Hpickle Hstore Hloc Hdoc Hget Hlast Hkey Hhead.
  destruct path as [|k0 rest]; [done|].
  assert (k0 ≠ "insertion_date") as Hk0 by (cbn in Hhead; congruence).
  clear Hhead.
  assert (k0 ≠ "_npObjectIDs") as Hk1.
  { intros ->. pose proof (do_old _ _ _ Hdoc) as Hold.
    unfold old_references in Hold. cbn in Hget.
    destruct (dict_get "_npObjectIDs" d) as [x|]; [|done].
    destruct x; try done. by destruct rest. }
  set (w0 := with_temp_new [] (with_temp_old old w)).
  assert (encode_ready (λ a, a ∈ arrays_of d) w0) as HE.
  { destruct Hdoc, Hstore. split; try done.
    intros o [b Hb]. exact (so_files0 o b Hb). }
  destruct (save_setup_spec _ _ w Hloc) as [(old' & Hold & Hs)|(e & Hold & _)];
    rewrite (do_old _ _ _ Hdoc) in Hold; [|discriminate].
  injection Hold as <-. fold w0 in Hs.
  destruct (_stashNPArrays d w0) as [r w1] eqn:Hst.
  pose proof (_stashNPArrays_rel _ _ _ _ Hst) as HR.
  destruct (_stashNPArrays_encoded _ _ _ _ _ HE (λ a Ha, Ha) Hst)
    as (d1 & -> & Henc).
  assert (objects w1 !! loc = Some d) as Hloc1.
  { rewrite (sr_objects _ _ HR). exact Hloc. }
  assert (∀ r w', save_doc loc w = (r, w') → save_finish loc d1 w1 = (r, w'))
    as Hsave.
  { intros r w'.
    by rewrite save_doc_unfold, (bind_ok _ _ _ _ _ Hs), (bind_ok _ _ _ _ _ Hst). }
  split.
  2:{ intros e w' H%Hsave.
      destruct (bson_error
                  (dict_set "insertion_date"
                     (VDatetime (datetime_now (now_calls w1)))
                     (dict_set "_npObjectIDs"
                        (reference_list (temp_newNpObjectIds w1)) d1)))
        as [e'|] eqn:Hb.
      - destruct (save_finish_raises loc d d1 w1 e' Hloc1 Hb) as (w2 & H' & _).
        rewrite H in H'. injection H' as -> _. eauto.
      - destruct (save_finish_returns loc d d1 w1 Hloc1 Hb) as (w2 & H' & _).
        cbn zeta in H'. congruence. }
  intros id0 w2 Hfin0%Hsave.
  destruct (save_finish_spec loc d d1 w1 _ _ Hloc1 Hfin0)
    as (w2' & Hfin & Hfs & _ & _ & Hcoll & _).
  cbn zeta in Hfin, Hcoll. rewrite Hfin0 in Hfin. injection Hfin as Hid0 <-.
  set (stored := dict_set "insertion_date" (VDatetime (datetime_now (now_calls w1)))
                   (dict_set "_npObjectIDs" (reference_list (temp_newNpObjectIds w1)) d1))
    in *.
  (* the file of the array *)
  destruct (stash_path (k0 :: rest) d _ _ _ _ ltac:(done) Hget Hst)
    as (key' & wa & wb & v' & Hl & Hv & Hg1 & HRa & HRb).
  cbn [stash_entry] in Hv.
  apply bind_inv in Hv as [(o & wb' & Ho & Hv)|(e & _ & [=])].
  inversion Hv; subst v' wb'. clear Hv.
  destruct (stash_array_spec _ _ _ _ _ (encode_ready_rel _ _ _ HE HRa)
              (path_array_in _ _ _ Hget) Ho) as (o' & [= <-] & Hkept).
  apply (kept_file_rel _ _ _ _ Hkept) in HRb as (Hfo & _ & Hnot).
  assert (fs w2 !! o = Some (pickle_dumps a)) as Hfo2.
  { rewrite Hfs, lookup_delete_all; done. }
  (* the stored document decodes *)
  assert (∃ y, map_items (decode_entry (fs w2)) d1 = Ok y) as Hy.
  { apply (decode_encoded_items _ d); [exact Hpickle| |apply (do_clean _ _ _ Hdoc)].
    revert Henc. apply encoded_items_mono. intros o1 a1 (Hf1 & _ & Hn1).
    rewrite Hfs, lookup_delete_all; done. }
  assert (∃ y', map_items (decode_entry (fs w2)) stored = Ok y') as Hy'.
  { apply map_items_dict_set; [|by eexists].
    apply map_items_dict_set; [exact Hy|by eexists]. }
  assert (get_path (k0 :: rest) (VDict stored) = Some (VObjectId o)) as Hg2.
  { unfold stored. by rewrite !get_path_dict_set_ne. }
  assert (collection w1 = collection w) as Hc1 by apply (sr_collection _ _ HR).
  unfold saved_id in *.
  destruct (dict_get "_id" stored) as [id|] eqn:Hid.
  - subst id0. destruct Hy' as [y' Hy'].
    destruct (load_single id w2 stored y' (k0 :: rest) o a key Hpickle)
      as [Hload Hgp]; auto.
    { unfold matches. rewrite Hcoll, Hc1. apply filter_upsert.
      - unfold has_id. rewrite Hid. apply value_eqb_refl.
      - apply (so_unique _ Hstore). }
    by eexists.
  - subst id0. set (id := VObjectId (next_oid w1)) in *.
    assert (k0 ≠ "_id") as Hk2.
    { intros ->. cbn in Hg2. by rewrite Hid in Hg2. }
    destruct (map_items_dict_set (decode_entry (fs w2)) "_id" id stored Hy')
      as [y'' Hy'']; [by eexists|].
    destruct (load_single id w2 (dict_set "_id" id stored) y''
                (k0 :: rest) o a key Hpickle) as [Hload Hgp]; auto.
    { unfold matches. rewrite Hcoll, Hc1. apply filter_snoc_only.
      - unfold has_id. rewrite dict_get_set_eq. apply value_eqb_refl.
      - apply (so_ids _ Hstore). apply (sr_next _ _ HR). }
    { by rewrite get_path_dict_set_ne. }
    by eexists.
Qed.

End LoadAfterSave.

(** ** Saving again what was saved *)

Section Resave.
Context {E : Externals}.








Lemma awaiting_weaken a pending w : awaiting (a ++ pending) w → awaiting pending w.
Proof.
  intros [H1 H2 H3 H4]. split; [done|done| |].
  - intros x Hx. apply H3, elem_of_app. by right.
  - rewrite fmap_app in H4. by apply NoDup_app in H4 as (_ & _ & H4).
Qed.





Lemma for_items_absent (f : string → value → M value) k d : ∀ w d' w',
  dict_get k d = None → for_items f d w = (Ok d', w') → dict_get k d' = None.
Proof.
  induction d as [|[k0 x] d IH]; intros w d' w' Hk H; cbn in H, Hk.
  - by inversion H.
  - apply bind_inv in H as [(x' & w1 & _ & H)|(e & _ & [=])].
    apply bind_inv in H as [(r & w2 & Hr & H)|(e & _ & [=])].
    inversion H; subst. cbn. destruct (String.eqb k0 k); [done|eauto].
Qed.






End Resave.

(** ** More of [delete] and [save] *)

Section DeleteAndSave.
Context {E : Externals}.



Lemma delete_all_Some l : ∀ (f : gmap nat bytes) o b,
  delete_all l f !! o = Some b → f !! o = Some b.
Proof.
  induction l as [|x l IH]; intros f o b H; [exact H|].
  change (delete_all l (base.delete x f) !! o = Some b) in H.
  apply IH in H. by apply lookup_delete_Some in H as [_ H].
Qed.


Lemma load_none query getarrays w :
  matches query w = [] → load query getarrays w = (Ok VNone, w).
Proof. intros H. rewrite load_unfold, H. by destruct getarrays. Qed.





(** X3.  A [save] that raises stores nothing: the collection is as it was.
    When it is the set-up or the encode pass that raises, nothing is deleted
    either: the caller's objects are as they were, the only calls are the
    [fs.put]s made before, and, when the files lay below the next ObjectId,
    every file that was there is there unchanged.  When it is
    [collection.save] that raises, for a document the encoder refuses, the
    [save] is not undone: the files left on the old list have been deleted,
    the files put stay, and the caller's dict has the new reference list and
    its 'insertion_date'. *)
Theorem failed_save_stores_nothing loc d w e w' :
  objects w !! loc = Some d →
  save_doc loc w = (Raise e, w') →
  collection w' = collection w
  ∧ ((objects w' = objects w
      ∧ calls_since w w' = FsPut <$> seq (next_oid w) (next_oid w' - next_oid w)
      ∧ (map_Forall (λ o _, o < next_oid w) (fs w) →
           ∀ o b, fs w !! o = Some b → fs w' !! o = Some b))
     ∨ (∃ old d1 w1 stored refs t,
          old_references d w = (Ok old, w)
          ∧ _stashNPArrays d (with_temp_new [] (with_temp_old old w)) = (Ok d1, w1)
          ∧ bson_error stored = Some e
          ∧ fs w' = delete_all (temp_oldNpObjectIDs w1) (fs w1)
          ∧ calls_since w w'
            = (FsPut <$> seq (next_oid w) (next_oid w1 - next_oid w))
              ++ (FsDelete <$> temp_oldNpObjectIDs w1)
          ∧ objects w'
            = <[loc := dict_set "insertion_date" (VDatetime t)
                         (dict_set "_npObjectIDs" (reference_list refs) d)]>
                (objects w))).
Proof.
  intros Hloc H. rewrite save_doc_unfold in H.
  destruct (save_setup_spec _ _ w Hloc) as [(old & Hold & Hs)|(e0 & _ & Hs)].
  2:{ rewrite (bind_raise _ _ _ _ _ Hs) in H. injection H as _ <-.
      split; [done|]. left. split; [done|]. split; [|done].
      unfold calls_since. by rewrite Nat.sub_diag, drop_all. }
  rewrite (bind_ok _ _ _ _ _ Hs) in H.
  destruct (_stashNPArrays d (with_temp_new [] (with_temp_old old w)))
    as [[d1|e1] w1] eqn:Hst.
  2:{ rewrite (bind_raise _ _ _ _ _ Hst) in H. injection H as _ <-.
      apply _stashNPArrays_rel in Hst as []. cbn in *.
      split; [done|]. left. split; [done|]. split.
      - unfold calls_since. by rewrite sr_calls0, drop_app_length.
      - intros Hbelow o b Hob. rewrite sr_fs_below0; [done|]. by eapply Hbelow. }
  rewrite (bind_ok _ _ _ _ _ Hst) in H.
  pose proof (_stashNPArrays_rel _ _ _ _ Hst) as []. cbn in *.
  assert (objects w1 !! loc = Some d) as Hloc1 by (by rewrite sr_objects0).
  destruct (bson_error
              (dict_set "insertion_date" (VDatetime (datetime_now (now_calls w1)))
                 (dict_set "_npObjectIDs"
                    (reference_list (temp_newNpObjectIds w1)) d1)))
    as [e'|] eqn:Hb.
  2:{ destruct (save_finish_returns loc d d1 w1 Hloc1 Hb) as (w2 & H' & _).
      cbn zeta in H'. congruence. }
  destruct (save_finish_raises loc d d1 w1 e' Hloc1 Hb)
    as (w2 & H' & Hfs & Hcalls & Hobj & Hcoll & _).
  rewrite H in H'. injection H' as -> ->.
  split; [congruence|]. right.
  eexists old, d1, w1, _, _, _. split; [done|]. split; [done|].
  split; [exact Hb|]. split; [done|]. split.
  - unfold calls_since. rewrite Hcalls, sr_calls0, <- app_assoc.
    by rewrite drop_app_length.
  - by rewrite Hobj, sr_objects0.
Qed.

Lemma save_doc_ok loc d w id w' :
  objects w !! loc = Some d →
  save_doc loc w = (Ok id, w') →
  ∃ old d1 w1,
    old_references d w = (Ok old, w)
    ∧ _stashNPArrays d (with_temp_new [] (with_temp_old old w)) = (Ok d1, w1)
    ∧ objects w1 !! loc = Some d
    ∧ save_finish loc d1 w1 = (Ok id, w').
Proof.
  intros Hloc H.
  destruct (save_doc_inv _ _ _ _ _ Hloc H) as [(e & [=] & _)|H']; exact H'.
Qed.

Lemma stash_entry_kept v k w :
  kept_by_encode v = true → stash_entry k v w = (Ok v, w).
Proof. by destruct v. Qed.

Lemma upsert_length_found (p : list (string * value) → bool) d c :
  filter (λ x, p x = true) c ≠ [] → length (upsert p d c) = length c.
Proof.
  induction c as [|x c IH]; [done|]. cbn [upsert]. intros H.
  destruct (p x) eqn:Hx; [done|]. cbn [length]. f_equal. apply IH.
  by rewrite filter_cons_False in H by congruence.
Qed.

Lemma upsert_not_found (p : list (string * value) → bool) d c :
  filter (λ x, p x = true) c = [] → upsert p d c = c ++ [d].
Proof.
  induction c as [|x c IH]; [done|]. cbn [upsert]. intros H.
  destruct (p x) eqn:Hx.
  - by rewrite filter_cons_True in H by done.
  - rewrite filter_cons_False in H by congruence. by rewrite IH.
Qed.

Lemma upsert_others (p : list (string * value) → bool) d c x :
  p x = false → x ∈ c → x ∈ upsert p d c.
Proof.
  intros Hx. induction c as [|y c IH]; [by intros ?%elem_of_nil|]. cbn [upsert].
  intros [->|Hin]%elem_of_cons.
  - rewrite Hx. set_solver.
  - destruct (p y); set_solver.
Qed.

(** X4.  After a [save] that returned, the caller's dict and the document stored
    under the identity returned agree on '_id' and on the reference list
    '_npObjectIDs'.  They differ in 'insertion_date': [save] reads the clock
    once for the stored document and once more for the caller's dict. *)
Theorem save_leaves_caller_in_step loc d w id w' :
  objects w !! loc = Some d →
  save_doc loc w = (Ok id, w') →
  ∃ stored d' refs,
    stored ∈ collection w'
    ∧ objects w' !! loc = Some d'
    ∧ dict_get "_id" stored = Some id
    ∧ dict_get "_id" d' = Some id
    ∧ dict_get "_npObjectIDs" stored = Some (reference_list refs)
    ∧ dict_get "_npObjectIDs" d' = Some (reference_list refs)
    ∧ dict_get "insertion_date" stored
        = Some (VDatetime (datetime_now (now_calls w)))
    ∧ dict_get "insertion_date" d'
        = Some (VDatetime (datetime_now (S (now_calls w))))
    ∧ now_calls w' = S (S (now_calls w)).
Proof.
  intros Hloc H.
  destruct (save_doc_ok _ _ _ _ _ Hloc H) as (old & d1 & w1 & _ & Hst & Hloc1 & Hfin).
  apply _stashNPArrays_rel in Hst as [_ _ Hnow _ _ _ _ _ _]. cbn in Hnow.
  destruct (bson_error
              (dict_set "insertion_date" (VDatetime (datetime_now (now_calls w1)))
                 (dict_set "_npObjectIDs"
                    (reference_list (temp_newNpObjectIds w1)) d1)))
    as [e|] eqn:Hb.
  { destruct (save_finish_raises loc d d1 w1 e Hloc1 Hb) as (w2 & H' & _).
    congruence. }
  destruct (save_finish_returns loc d d1 w1 Hloc1 Hb)
    as (w2 & H' & _ & _ & Hobj & Hcoll & _ & _ & _ & Hnow').
  cbn zeta in H', Hobj, Hcoll. rewrite Hfin in H'. injection H' as Hid <-.
  set (stored := dict_set "insertion_date" _ (dict_set "_npObjectIDs" _ d1)) in *.
  assert (dict_get "_npObjectIDs" stored
          = Some (reference_list (temp_newNpObjectIds w1))) as Hrefs.
  { unfold stored. rewrite dict_get_set_ne by done. apply dict_get_set_eq. }
  assert (dict_get "insertion_date" stored
          = Some (VDatetime (datetime_now (now_calls w1)))) as Hdate
    by apply dict_get_set_eq.
  unfold saved_id in Hid, Hcoll, Hobj.
  rewrite Hobj, lookup_insert_eq, Hnow', <- Hnow.
  destruct (dict_get "_id" stored) as [id0|] eqn:Hid0.
  - subst id0. eexists stored, _, _.
    split; [rewrite Hcoll; apply upsert_elem|]. split; [reflexivity|].
    rewrite dict_get_set_eq, !(dict_get_set_ne "_npObjectIDs") by done.
    rewrite (dict_get_set_ne "insertion_date" "_id") by done.
    rewrite !dict_get_set_eq. done.
  - subst id. eexists (dict_set "_id" (VObjectId (next_oid w1)) stored), _, _.
    split; [rewrite Hcoll; apply elem_of_app; right;
            by apply list_elem_of_singleton|].
    split; [reflexivity|].
    rewrite !dict_get_set_eq, !(dict_get_set_ne "_npObjectIDs") by done.
    rewrite !(dict_get_set_ne "insertion_date" "_id") by done.
    rewrite !dict_get_set_eq. done.
Qed.

Lemma list_comprehension_app {A B} (f : A → M B) l1 l2 : ∀ w,
  list_comprehension f (l1 ++ l2) w =
  match list_comprehension f l1 w with
  | (Ok ys1, w1) =>
      match list_comprehension f l2 w1 with
      | (Ok ys2, w2) => (Ok (ys1 ++ ys2), w2)
      | (Raise e, w2) => (Raise e, w2)
      end
  | (Raise e, w1) => (Raise e, w1)
  end.
Proof.
  induction l1 as [|x l1 IH]; intros w.
  - cbn. by destruct (list_comprehension f l2 w) as [[?|?] ?].
  - cbn [app list_comprehension]. unfold bind.
    destruct (f x w) as [[y|e] w1]; [|done]. rewrite IH.
    destruct (list_comprehension f l1 w1) as [[ys1|e] w2]; [|done].
    unfold ret.
    destruct (list_comprehension f l2 w2) as [[ys2|e] w3]; reflexivity.
Qed.

(** X5.  [save] of a list of documents is the [save] of a first part followed by
    the [save] of the rest in the state the first part left: the identities
    come back in the order of the documents, one for each.  When a document
    of the rest raises, the documents before it stay saved; [save] does not
    take the list as one transaction. *)
Theorem save_of_list_is_saves_in_turn l1 l2 w :
  save (l1 ++ l2) w =
    match save l1 w with
    | (Ok ids1, w1) =>
        match save l2 w1 with
        | (Ok ids2, w2) => (Ok (ids1 ++ ids2), w2)
        | (Raise e, w2) => (Raise e, w2)
        end
    | (Raise e, w1) => (Raise e, w1)
    end
  ∧ (∀ ids w', save l1 w = (Ok ids, w') → length ids = length l1)
  ∧ (∀ loc, save [loc] w =
       match save_doc loc w with
       | (Ok id, w') => (Ok [id], w')
       | (Raise e, w') => (Raise e, w')
       end).
Proof.
  split; [apply list_comprehension_app|]. split.
  - intros ids w'. apply list_comprehension_length.
  - intros loc. unfold save. cbn. unfold bind.
    by destruct (save_doc loc w) as [[id|e] w'].
Qed.

(** X6.  [save] inserts or overwrites.  A document without '_id' is appended to
    the collection under an ObjectId the generator had not given before.  A
    document whose '_id' is a value the encode pass keeps is stored under that
    '_id', which [save] returns: when the collection has a document of that
    identity, the first such document is replaced and the collection keeps
    its length, otherwise the document is appended.  Documents of another
    identity stay. *)
Theorem save_inserts_or_overwrites loc d w id w' :
  objects w !! loc = Some d →
  save_doc loc w = (Ok id, w') →
  match dict_get "_id" d with
  | None =>
      ∃ stored n,
        collection w' = collection w ++ [stored]
        ∧ dict_get "_id" stored = Some id
        ∧ id = VObjectId n ∧ next_oid w ≤ n < next_oid w'
  | Some v =>
      kept_by_encode v = true →
      id = v
      ∧ ∃ stored,
          dict_get "_id" stored = Some v
          ∧ collection w' = upsert (has_id v) stored (collection w)
          ∧ (matches (has_id v) w ≠ [] →
               length (collection w') = length (collection w))
          ∧ (matches (has_id v) w = [] →
               collection w' = collection w ++ [stored])
          ∧ ∀ x, x ∈ collection w → has_id v x = false → x ∈ collection w'
  end.
Proof.
  intros Hloc H.
  destruct (save_doc_ok _ _ _ _ _ Hloc H) as (old & d1 & w1 & _ & Hst & Hloc1 & Hfin).
  destruct (save_finish_inv loc d d1 w1 _ _ Hloc1 Hfin)
    as (_ & Hid & _ & _ & Hcoll & Hn').
  cbn zeta in Hid, Hcoll, Hn'.
  pose proof (_stashNPArrays_rel _ _ _ _ Hst) as [Hc _ _ Hnext _ _ _ _ _].
  cbn in Hc, Hnext.
  set (stored := dict_set "insertion_date" _ _) in *.
  assert (dict_get "_id" stored = dict_get "_id" d1) as Hsid.
  { unfold stored. by rewrite !dict_get_set_ne. }
  destruct (dict_get "_id" d) as [v|] eqn:Hv.
  - intros Hkept.
    destruct (for_items_get stash_entry stash_rel
                stash_rel_refl stash_rel_trans (λ k x, stash_entry_rel x k)
                "_id" d v _ d1 w1 Hv Hst)
      as (wa & wb & v' & Hf & Hg & _ & _).
    rewrite stash_entry_kept in Hf by done. injection Hf as <- _.
    rewrite Hsid, Hg in Hcoll. unfold saved_id in Hid. rewrite Hsid, Hg in Hid.
    split; [done|]. exists stored. rewrite Hsid, Hc in *.
    split; [done|]. split; [done|]. split; [|split].
    + intros Hm. rewrite Hcoll. by apply upsert_length_found.
    + intros Hm. rewrite Hcoll. by apply upsert_not_found.
    + intros x Hx Hid'. rewrite Hcoll. by apply upsert_others.
  - assert (dict_get "_id" d1 = None) as Hg
      by (eapply for_items_absent; [exact Hv|exact Hst]).
    rewrite Hsid, Hg in Hcoll, Hn'. unfold saved_id in Hid.
    rewrite Hsid, Hg in Hid.
    eexists _, (next_oid w1). rewrite Hc in Hcoll. split; [exact Hcoll|].
    rewrite dict_get_set_eq.
    split; [congruence|]. split; [congruence|]. split; [exact Hnext|]. lia.
Qed.

End DeleteAndSave.

(** ** The reference list and the files of GridFS *)

Section Ledger.
Context {E : Externals}.
Variable old : list nat.
Variable n0 : nat.








End Ledger.

Section SavedReferences.
Context {E : Externals}.

(** The document [save_finish] stores: it is in the collection under the
    identity returned, carries the new list, and holds what the encoded copy
    held under every key but 'insertion_date' and '_npObjectIDs'; in a
    well-kept collection it is the only document of its identity. *)
Lemma save_finish_stored loc d docCopy w id w' :
  objects w !! loc = Some d →
  save_finish loc docCopy w = (Ok id, w') →
  ∃ stored,
    stored ∈ collection w'
    ∧ dict_get "_id" stored = Some id
    ∧ dict_get "_npObjectIDs" stored
        = Some (reference_list (temp_newNpObjectIds w))
    ∧ fs w' = delete_all (temp_oldNpObjectIDs w) (fs w)
    ∧ (∀ k rest v, k ≠ "insertion_date" → k ≠ "_npObjectIDs" →
         get_path (k :: rest) (VDict docCopy) = Some v →
         get_path (k :: rest) (VDict stored) = Some v)
    ∧ (store_ok w → matches (has_id id) w' = [stored]).
Proof.
  intros Hloc Hfin.
  destruct (save_finish_inv loc d docCopy w _ _ Hloc Hfin)
    as (_ & Hid & Hfs & _ & Hcoll & _).
  cbn zeta in Hid, Hcoll.
  set (stored := dict_set "insertion_date" _ _) in *.
  assert (dict_get "_npObjectIDs" stored
          = Some (reference_list (temp_newNpObjectIds w))) as Hrefs.
  { unfold stored. rewrite dict_get_set_ne by done. apply dict_get_set_eq. }
  assert (∀ k rest, k ≠ "insertion_date" → k ≠ "_npObjectIDs" →
            get_path (k :: rest) (VDict stored)
            = get_path (k :: rest) (VDict docCopy)) as Hpath.
  { intros k rest H1 H2. unfold stored. by rewrite !get_path_dict_set_ne. }
  unfold saved_id in Hid, Hcoll. unfold matches.
  destruct (dict_get "_id" stored) as [id0|] eqn:Hid0.
  - subst id0. exists stored. split; [rewrite Hcoll; apply upsert_elem|].
    split; [done|]. split; [done|]. split; [done|]. split.
    + intros k rest v H1 H2 Hv. by rewrite Hpath.
    + intros [_ _ Huniq]. rewrite Hcoll. apply filter_upsert; [|apply Huniq].
      unfold has_id. rewrite Hid0. apply value_eqb_refl.
  - exists (dict_set "_id" id stored).
    split; [rewrite Hcoll; apply elem_of_app; right;
            by apply list_elem_of_singleton|].
    split; [apply dict_get_set_eq|].
    split; [by rewrite dict_get_set_ne|]. split; [done|]. split.
    + intros k rest v H1 H2 Hv.
      destruct (decide (k = "_id")) as [->|H3].
      * rewrite <- Hpath in Hv by done. cbn in Hv. by rewrite Hid0 in Hv.
      * rewrite get_path_dict_set_ne by done. by rewrite Hpath.
    + intros [_ Hids _]. rewrite Hcoll. apply filter_snoc_only.
      * unfold has_id. rewrite dict_get_set_eq. apply value_eqb_refl.
      * rewrite Hid. apply Hids. lia.
Qed.




Lemma scan_old_found n : ∀ i h found w res w',
  scan_old n i h found w = (Ok res, w') →
  res = found ∨ ∃ obj, res = Some obj ∧ obj ∈ temp_newNpObjectIds w'.
Proof.
  induction n as [|n IH]; intros i h found w res w' H.
  - cbn in H. inversion H; subst. eauto.
  - rewrite scan_old_unfold in H.
    destruct (temp_oldNpObjectIDs w !! i) as [obj|] eqn:Hi;
      [|inversion H; subst; eauto].
    destruct (fs w !! obj) as [b|]; [|done].
    destruct (decide (h = md5_hexdigest b)) as [Hh|Hh]; [|eauto].
    pose proof (scan_old_rel _ _ _ _ _ _ _ H) as [[] _].
    destruct (IH _ _ _ _ _ _ H) as [->|Hres]; [|eauto].
    right. exists obj. split; [done|].
    eapply elem_of_prefix; [|exact sr_new0]. cbn.
    apply elem_of_app. right. by apply list_elem_of_singleton.
Qed.

Lemma stash_array_listed a w o w' :
  stash_array a w = (Ok o, w') → o ∈ temp_newNpObjectIds w'.
Proof.
  intros H. unfold stash_array in H. unfold bind at 1, gets in H.
  apply bind_inv in H as [(found & w1 & H1 & H)|(e & _ & [=])].
  destruct (scan_old_found _ _ _ _ _ _ _ H1) as [->|(obj & -> & Hobj)].
  - unfold fs_put, bind, gets, modify, log, ret in H. cbn in H.
    inversion H; subst. cbn.
    apply elem_of_app. right. by apply list_elem_of_singleton.
  - by inversion H; subst.
Qed.

(** X8.  Every array [save] takes out of a document is on the reference list.
    Where the document held an array at the end of a path of keys through
    nested dicts, the document stored under the identity returned holds an
    ObjectId, and the reference list of that document names it.  The path
    must not start at 'insertion_date', which [save] overwrites. *)
Theorem save_lists_every_array_reference loc d w id w' k path a :
  objects w !! loc = Some d →
  save_doc loc w = (Ok id, w') →
  get_path (k :: path) (VDict d) = Some (VNdarray a) →
  k ≠ "insertion_date" →
  ∃ stored refs o,
    stored ∈ collection w'
    ∧ dict_get "_id" stored = Some id
    ∧ dict_get "_npObjectIDs" stored = Some (reference_list refs)
    ∧ get_path (k :: path) (VDict stored) = Some (VObjectId o)
    ∧ o ∈ refs.
Proof.
  intros Hloc H Hget Hk.
  destruct (save_doc_ok _ _ _ _ _ Hloc H)
    as (old & d1 & w1 & Hold & Hst & Hloc1 & Hfin).
  assert (k ≠ "_npObjectIDs") as Hk'.
  { intros ->. cbn in Hget. unfold old_references in Hold.
    destruct (dict_get "_npObjectIDs" d) as [x|]; [|done].
    destruct path; [injection Hget as ->; done|].
    by destruct x. }
  destruct (stash_path (k :: path) d _ _ _ _ ltac:(done) Hget Hst)
    as (key & wa & wb & v' & _ & Hf & Hg & _ & HRb).
  cbn [stash_entry] in Hf.
  apply bind_inv in Hf as [(o & wc & Ha & Hf)|(e & _ & [=])].
  injection Hf as <- <-.
  apply stash_array_listed in Ha.
  destruct (save_finish_stored _ _ _ _ _ _ Hloc1 Hfin)
    as (stored & Hin & Hid & Hrefs & _ & Hpath).
  exists stored, (temp_newNpObjectIds w1), o.
  split; [done|]. split; [done|]. split; [done|]. split; [by apply Hpath|].
  eapply elem_of_prefix; [exact Ha|apply (sr_new _ _ HRb)].
Qed.

End SavedReferences.

(** ** What the two passes make of a document *)

Section Passes.
Context {E : Externals}.

Lemma for_items_keys (f : string → value → M value) d : ∀ w d' w',
  for_items f d w = (Ok d', w') → d'.*1 = d.*1.
Proof.
  induction d as [|[k x] d IH]; intros w d' w' H; cbn in H.
  - by inversion H.
  - apply bind_inv in H as [(x' & w1 & _ & H)|(e & _ & [=])].
    apply bind_inv in H as [(r & w2 & Hr & H)|(e & _ & [=])].
    inversion H; subst. cbn. f_equal. eauto.
Qed.

Lemma for_items_numpy_free d :
  Forall (λ kv, ∀ k w x' w',
            stash_entry k kv.2 w = (Ok x', w') → numpy_free x') d →
  ∀ w d' w', for_items stash_entry d w = (Ok d', w') →
    numpy_free_items numpy_free d'.
Proof.
  induction 1 as [|[k x] d Hx _ IH]; intros w d' w' H; cbn [for_items] in H.
  - by inversion H.
  - apply bind_inv in H as [(x' & w1 & H1 & H)|(e & _ & [=])].
    apply bind_inv in H as [(r & w2 & H2 & H)|(e & _ & [=])].
    inversion H; subst. cbn. split; eauto.
Qed.

Lemma stash_entry_numpy_free x : ∀ k w x' w',
  stash_entry k x w = (Ok x', w') → numpy_free x'.
Proof.
  induction x as [| | | | | | |a| | |l _|d IH] using value_nested_ind;
    intros k w x' w' H; cbn [stash_entry] in H;
    try (by inversion H; subst).
  - apply bind_inv in H as [(o & w1 & _ & H)|(e & _ & [=])].
    by inversion H; subst.
  - apply bind_inv in H as [(d' & w1 & H1 & H)|(e & _ & [=])].
    inversion H; subst. cbn. by eapply for_items_numpy_free.
Qed.

(** X9.  What the encode pass hands back holds no numpy array and no numpy
    number, at the top or in a dict at any depth, under the keys the document
    had, in their order: the store can take it.  Lists are not looked
    into. *)
Theorem encode_pass_leaves_no_numpy_value doc w doc' w' :
  _stashNPArrays doc w = (Ok doc', w') →
  numpy_free_items numpy_free doc' ∧ doc'.*1 = doc.*1.
Proof.
  intros H. split; [|by eapply for_items_keys].
  eapply for_items_numpy_free; [|exact H].
  apply Forall_forall. intros kv _. apply stash_entry_numpy_free.
Qed.

Lemma load_entry_reference doc w doc' w' path key o :
  _loadNPArrays doc w = (Ok doc', w') →
  get_path path (VDict doc) = Some (VObjectId o) →
  last path = Some key →
  String.eqb key "_id" = false →
  ∃ b x, fs w !! o = Some b ∧ pickle_loads b = Some x
         ∧ get_path path (VDict doc') = Some x.
Proof.
  intros H Hget Hlast Hkey.
  assert (path ≠ []) as Hne by (by destruct path).
  destruct (load_path _ _ _ _ _ _ Hne Hget H) as (key' & v' & Hl & Hf & Hg).
  assert (key' = key) as -> by congruence.
  cbn [load_entry] in Hf. rewrite Hkey in Hf.
  unfold bind, fs_get, _binary2npArray in Hf.
  destruct (fs w !! o) as [b|]; [|done].
  destruct (pickle_loads b) as [x|] eqn:Hx; [|done].
  inversion Hf; subst. eauto.
Qed.

(** X10.  The decode pass, when it returns, has left the state as it was and has
    kept the keys and their order.  At the end of a path of keys through
    nested dicts: an ObjectId under a key other than '_id' has become what
    [pickle.loads] makes of the file of that name; an ObjectId under '_id' has
    stayed; and so has every value that is neither ObjectId nor dict. *)
Theorem decode_pass_expands_references doc w doc' w' path key v :
  _loadNPArrays doc w = (Ok doc', w') →
  get_path path (VDict doc) = Some v →
  last path = Some key →
  w' = w ∧ doc'.*1 = doc.*1
  ∧ match v with
    | VObjectId o =>
        if String.eqb key "_id" then get_path path (VDict doc') = Some v
        else ∃ b x, fs w !! o = Some b ∧ pickle_loads b = Some x
                    ∧ get_path path (VDict doc') = Some x
    | VDict _ => True
    | _ => get_path path (VDict doc') = Some v
    end.
Proof.
  intros H Hget Hlast.
  split; [by eapply _loadNPArrays_reads|]. split; [by eapply for_items_keys|].
  assert (path ≠ []) as Hne by (by destruct path).
  destruct (load_path _ _ _ _ _ _ Hne Hget H) as (key' & v' & Hl & Hf & Hg).
  assert (key' = key) as -> by congruence.
  destruct v; try (cbn in Hf; by inversion Hf; subst).
  destruct (String.eqb key "_id") eqn:Hkey.
  - cbn [load_entry] in Hf. rewrite Hkey in Hf. by inversion Hf; subst.
  - by eapply load_entry_reference.
Qed.

Lemma list_comprehension_each {A B} (f : A → M B) l :
  (∀ x w r w', f x w = (r, w') → w' = w) →
  ∀ w ys w', list_comprehension f l w = (Ok ys, w') →
    ∀ x, x ∈ l → ∃ y, f x w = (Ok y, w).
Proof.
  intros Hf. induction l as [|x l IH]; intros w ys w' H z Hz; cbn in H.
  - by apply elem_of_nil in Hz.
  - apply bind_inv in H as [(y & w1 & H1 & H)|(e & _ & [=])].
    pose proof (Hf _ _ _ _ H1) as ->.
    apply bind_inv in H as [(zs & w2 & H2 & H)|(e & _ & [=])].
    apply elem_of_cons in Hz as [->|Hz]; [eauto|]. eapply IH; eauto.
Qed.

Lemma load_reads query getarrays w r w' :
  load query getarrays w = (r, w') → w' = w.
Proof.
  rewrite load_unfold. intros H.
  apply bind_inv in H as [(ds & w1 & H1 & H)|(e & H1 & _)].
  - assert (w1 = w) as ->.
    { destruct getarrays; [|by inversion H1].
      eapply list_comprehension_reads; [|exact H1]. apply _loadNPArrays_reads. }
    by destruct ds as [|? [|? ?]]; inversion H.
  - destruct getarrays; [|by inversion H1].
    eapply list_comprehension_reads; [|exact H1]. apply _loadNPArrays_reads.
Qed.

(** X11.  [load] and a reference without a file.  When one of the documents a
    query selects holds, in a dict at any depth and under a key other than
    '_id', an ObjectId that names no file of GridFS, [load] with
    [getarrays] raises for the whole query, and returns none of the documents
    selected.  [load] without [getarrays] returns.  Neither changes the
    state. *)
Theorem load_raises_on_reference_without_file query w d path key o :
  d ∈ matches query w →
  get_path path (VDict d) = Some (VObjectId o) →
  last path = Some key →
  key ≠ "_id" →
  fs w !! o = None →
  (∃ e, load query true w = (Raise e, w))
  ∧ (∃ r, load query false w = (Ok r, w)).
Proof.
  intros Hd Hget Hlast Hkey Hfs. split.
  - destruct (load query true w) as [[r|e] w'] eqn:H.
    2:{ apply load_reads in H as Hw. subst. eauto. }
    exfalso. rewrite load_unfold in H.
    apply bind_inv in H as [(ds & w1 & H1 & _)|(e & _ & [=])].
    destruct (list_comprehension_each _ _ _loadNPArrays_reads _ _ _ H1 d Hd)
      as [d' Hd'].
    destruct (load_entry_reference _ _ _ _ _ _ _ Hd' Hget Hlast)
      as (b & x & Hb & _); [by apply String.eqb_neq|congruence].
  - rewrite load_unfold. unfold bind, ret.
    destruct (matches query w) as [|? [|? ?]]; eauto.
Qed.

End Passes.

(** ** [loadFromIds] *)

Section LoadFromIds.
Context {E : Externals}.
Variable ObjectId_of_str : string → option nat.

Lemma assign_obj_id_sought id obj_id :
  ObjectId_or_str id = true →
  assign_obj_id ObjectId_of_str id obj_id = Some (id_sought ObjectId_of_str id).
Proof. destruct id; try done. cbn. by destruct (ObjectId_of_str s). Qed.

Lemma assign_obj_id_other id obj_id :
  ObjectId_or_str id = false →
  assign_obj_id ObjectId_of_str id obj_id = obj_id.
Proof. by destruct id. Qed.

Lemma loadFromIds_loop_reads Ids : ∀ obj_id out w r w',
  loadFromIds_loop ObjectId_of_str Ids obj_id out w = (r, w') → w' = w.
Proof.
  induction Ids as [|id Ids IH]; intros obj_id out w r w' H;
    cbn [loadFromIds_loop] in H.
  - by inversion H.
  - destruct (assign_obj_id ObjectId_of_str id obj_id) as [q|];
      [|by inversion H].
    destruct (load (has_id q) true w) as [[x|e] w1] eqn:Hl.
    + apply load_reads in Hl as ->. by eapply IH.
    + apply load_reads in Hl as ->. by inversion H.
Qed.

Lemma loadFromIds_loop_returns Ids :
  Forall (λ id, ObjectId_or_str id = true) Ids →
  ∀ obj_id out w res w',
    loadFromIds_loop ObjectId_of_str Ids obj_id out w = (inl res, w')
    ↔ w' = w
      ∧ ∃ more, res = out ++ more
          ∧ Forall2 (λ id r,
               load (has_id (id_sought ObjectId_of_str id)) true w = (Ok r, w))
              Ids more.
Proof.
  induction 1 as [|id Ids Hid _ IH]; intros obj_id out w res w'.
  - cbn. split.
    + intros [= <- <-]. split; [done|]. exists []. by rewrite app_nil_r.
    + intros (-> & more & -> & ->%Forall2_nil_inv_l). by rewrite app_nil_r.
  - cbn [loadFromIds_loop]. rewrite (assign_obj_id_sought _ _ Hid).
    destruct (load (has_id (id_sought ObjectId_of_str id)) true w)
      as [[r|e] w1] eqn:Hl.
    + apply load_reads in Hl as Hw. subst w1. rewrite IH. split.
      * intros (-> & more & -> & Hmore). split; [done|].
        exists (r :: more). rewrite <- app_assoc. split; [done|].
        by constructor.
      * intros (-> & more & -> & Hmore). split; [done|].
        apply Forall2_cons_inv_l in Hmore as (r' & more' & Hr & Hmore & ->).
        assert (r' = r) as -> by congruence.
        exists more'. by rewrite <- app_assoc.
    + split; [done|]. intros (-> & more & -> & Hmore).
      apply Forall2_cons_inv_l in Hmore as (r' & more' & Hr & _). congruence.
Qed.

(** X12.  [loadFromIds] on a list of ObjectIds and strings.  It returns a list
    exactly when [load] with [getarrays] returns for each of them, and the
    list then holds, in the order of the ids, what [load] returns for the
    identity sought: [None] where the collection has no such document.  A
    string that spells an ObjectId is searched for as that ObjectId.  An id
    that is not in a list is taken as the list of that one id.  The state
    stays as it was. *)
Theorem loadFromIds_answers_each_id Ids w :
  Forall (λ id, ObjectId_or_str id = true) Ids →
  (∀ out w',
     loadFromIds ObjectId_of_str (VList Ids) w = (inl out, w')
     ↔ w' = w
       ∧ Forall2 (λ id r,
            load (has_id (id_sought ObjectId_of_str id)) true w = (Ok r, w))
           Ids out)
  ∧ (∀ out w' i id,
       loadFromIds ObjectId_of_str (VList Ids) w = (inl out, w') →
       Ids !! i = Some id →
       matches (has_id (id_sought ObjectId_of_str id)) w = [] →
       out !! i = Some VNone)
  ∧ (∀ id, Ids = [id] →
       loadFromIds ObjectId_of_str id w
       = loadFromIds ObjectId_of_str (VList Ids) w).
Proof.
  intros HIds.
  assert (∀ out w',
     loadFromIds ObjectId_of_str (VList Ids) w = (inl out, w')
     ↔ w' = w
       ∧ Forall2 (λ id r,
            load (has_id (id_sought ObjectId_of_str id)) true w = (Ok r, w))
           Ids out) as Hchar.
  { intros out w'. unfold loadFromIds.
    rewrite (loadFromIds_loop_returns _ HIds). split.
    - by intros (-> & more & -> & Hmore).
    - intros [-> Hout]. eauto. }
  split; [exact Hchar|]. split.
  - intros out w' i id H Hi Hnone. apply Hchar in H as [_ H].
    destruct (Forall2_lookup_l _ _ _ _ _ H Hi) as (r & Hr & Hload).
    rewrite load_none in Hload by done. congruence.
  - intros id ->. apply Forall_inv in HIds. by destruct id.
Qed.

Lemma loadFromIds_loop_prefix pre l1 l2 :
  (∀ obj_id out w,
     loadFromIds_loop ObjectId_of_str l1 obj_id out w
     = loadFromIds_loop ObjectId_of_str l2 obj_id out w) →
  ∀ obj_id out w,
    loadFromIds_loop ObjectId_of_str (pre ++ l1) obj_id out w
    = loadFromIds_loop ObjectId_of_str (pre ++ l2) obj_id out w.
Proof.
  intros H. induction pre as [|id pre IH]; intros obj_id out w; [apply H|].
  cbn [app loadFromIds_loop].
  destruct (assign_obj_id ObjectId_of_str id obj_id) as [q|]; [|done].
  destruct (load (has_id q) true w) as [[r|e] w1]; [apply IH|done].
Qed.

(** X13.  [loadFromIds] and an id that is neither ObjectId nor string, such as a
    number or [None].  The loop has no branch for it and searches with
    whatever its local [obj_id] holds.  As the first id of the list, or alone,
    it ends [loadFromIds] with an [UnboundLocalError] before anything is
    loaded.  After another id it is silently taken for the id before it: the
    document of that id is returned a second time in its place. *)
Theorem loadFromIds_id_of_other_type x w :
  ObjectId_or_str x = false →
  (∀ rest,
     loadFromIds ObjectId_of_str (VList (x :: rest)) w
     = (inr UnboundLocalError, w))
  ∧ ((∀ l, x ≠ VList l) →
     loadFromIds ObjectId_of_str x w = (inr UnboundLocalError, w))
  ∧ (∀ pre id rest,
       ObjectId_or_str id = true →
       loadFromIds ObjectId_of_str (VList (pre ++ id :: x :: rest)) w
       = loadFromIds ObjectId_of_str (VList (pre ++ id :: id :: rest)) w).
Proof.
  intros Hx. split; [|split].
  - intros rest. unfold loadFromIds. cbn [loadFromIds_loop].
    by rewrite assign_obj_id_other.
  - intros Hl. unfold loadFromIds.
    destruct x; try (by cbn); by destruct (Hl l).
  - intros pre id rest Hid. unfold loadFromIds.
    apply loadFromIds_loop_prefix. intros obj_id out w0.
    cbn [loadFromIds_loop]. rewrite (assign_obj_id_sought _ _ Hid).
    destruct (load (has_id (id_sought ObjectId_of_str id)) true w0)
      as [[r|e] w1]; [|done].
    by rewrite (assign_obj_id_sought _ _ Hid), (assign_obj_id_other _ _ Hx).
Qed.

End LoadFromIds.

(** ** The stores stay well kept *)

Section StoresKept.
Context {E : Externals}.

Lemma value_eqb_eq v : ∀ w, value_eqb v w = true → v = w.
Proof.
  induction v as [|b|z|x|s|t|o|a|z|x|l IH|d IH] using value_nested_ind;
    intros [|b'|z'|x'|s'|t'|o'|a'|z'|x'|l'|d'] H; try done; cbn in H.
  - by apply Bool.eqb_prop in H as ->.
  - by apply Z.eqb_eq in H as ->.
  - by apply Z.eqb_eq in H as ->.
  - by apply String.eqb_eq in H as ->.
  - by apply Z.eqb_eq in H as ->.
  - by apply Nat.eqb_eq in H as ->.
  - apply andb_true_iff in H as [H H3]. apply andb_true_iff in H as [H1 H2].
    apply String.eqb_eq in H1. apply bool_decide_eq_true in H2, H3.
    destruct a, a'; cbn in *; by subst.
  - by apply Z.eqb_eq in H as ->.
  - by apply Z.eqb_eq in H as ->.
  - f_equal. revert l' H.
    induction IH as [|y l Hy _ IHl]; intros [|y' l'] H; try done.
    apply andb_true_iff in H as [H1 H2]. f_equal; [by apply Hy|by apply IHl].
  - f_equal. revert d' H.
    induction IH as [|[k y] d Hy _ IHd]; intros [|[k' y'] d'] H; try done.
    apply andb_true_iff in H as [H H3]. apply andb_true_iff in H as [H1 H2].
    apply String.eqb_eq in H1 as ->. cbn in Hy.
    f_equal; [f_equal; by apply Hy|by apply IHd].
Qed.

Lemma has_id_get id stored v :
  dict_get "_id" stored = Some v → has_id id stored = value_eqb v id.
Proof. unfold has_id. by intros ->. Qed.

Lemma Forall_upsert (Q : list (string * value) → Prop)
  (p : list (string * value) → bool) s c :
  Q s → Forall Q c → Forall Q (upsert p s c).
Proof.
  intros Hs. induction 1 as [|x c Hx Hc IH]; cbn [upsert].
  - by constructor.
  - destruct (p x); by constructor.
Qed.

Lemma filter_upsert_out (q p : list (string * value) → bool) s c :
  q s = false →
  filter (λ x, q x = true) (upsert p s c)
    `sublist_of` filter (λ x, q x = true) c.
Proof.
  intros Hs. induction c as [|x c IH]; cbn [upsert].
  - by rewrite filter_cons_False by congruence.
  - destruct (p x).
    + rewrite filter_cons_False by congruence.
      destruct (q x) eqn:Hx.
      * rewrite (filter_cons_True _ x) by done. by apply sublist_cons.
      * by rewrite (filter_cons_False _ x) by congruence.
    + destruct (q x) eqn:Hx.
      * rewrite !(filter_cons_True _ x) by done. by apply sublist_skip.
      * by rewrite !(filter_cons_False _ x) by congruence.
Qed.

Lemma filter_none (p : list (string * value) → bool) c :
  Forall (λ x, p x = false) c → filter (λ x, p x = true) c = [].
Proof.
  induction 1 as [|x c Hx _ IH]; [done|].
  by rewrite filter_cons_False by congruence.
Qed.

Lemma save_finish_next loc d docCopy w id w' :
  objects w !! loc = Some d →
  save_finish loc docCopy w = (Ok id, w') →
  next_oid w' = match dict_get "_id" docCopy with
                | None => S (next_oid w)
                | Some _ => next_oid w
                end.
Proof.
  intros Hloc Hfin.
  destruct (save_finish_inv _ _ _ _ _ _ Hloc Hfin) as (_ & _ & _ & _ & _ & Hn).
  cbn zeta in Hn. rewrite !(dict_get_set_ne "_id") in Hn by done.
  rewrite Hn. by destruct (dict_get "_id" docCopy).
Qed.

(** The state the encode pass has reached is as well kept as the one it
    began in. *)
Lemma store_ok_rel w w1 :
  store_ok w →
  collection w1 = collection w →
  next_oid w ≤ next_oid w1 →
  (∀ o, next_oid w1 ≤ o → fs w1 !! o = fs w !! o) →
  store_ok w1.
Proof.
  intros [Hf Hi Hu] Hc Hn Hfs. split.
  - intros o b Ho. destruct (decide (o < next_oid w1)) as [|Hge]; [done|].
    rewrite Hfs in Ho by lia. apply Hf in Ho. lia.
  - intros n Hn1. rewrite Hc. apply Hi. lia.
  - intros id. rewrite Hc. apply Hu.
Qed.

(** X14.  [save] keeps the two stores well kept, whether it returns or raises:
    afterwards every file still lies below the next ObjectId, no document has
    an identity the generator is yet to give, and no two documents of the
    collection have one identity.  The document saved has no '_id', or an
    '_id' the encode pass keeps that is not an ObjectId the generator is yet
    to give. *)
Theorem save_keeps_stores_well_kept loc d w r w' :
  store_ok w →
  objects w !! loc = Some d →
  (∀ v, dict_get "_id" d = Some v →
     kept_by_encode v = true ∧ ∀ n, v = VObjectId n → n < next_oid w) →
  save_doc loc w = (r, w') →
  store_ok w'.
Proof.
  intros Hok Hloc Hid H. rewrite save_doc_unfold in H.
  destruct (save_setup_spec _ _ w Hloc) as [(old & Hold & Hs)|(e0 & _ & Hs)].
  2:{ rewrite (bind_raise _ _ _ _ _ Hs) in H. by injection H as _ <-. }
  rewrite (bind_ok _ _ _ _ _ Hs) in H.
  destruct (_stashNPArrays d (with_temp_new [] (with_temp_old old w)))
    as [[d1|e1] w1] eqn:Hst.
  2:{ rewrite (bind_raise _ _ _ _ _ Hst) in H. injection H as _ <-.
      apply _stashNPArrays_rel in Hst as [].
      by apply (store_ok_rel w). }
  rewrite (bind_ok _ _ _ _ _ Hst) in H.
  pose proof (_stashNPArrays_rel _ _ _ _ Hst) as [Hc Hobj _ Hnext _ _ Habove _ _].
  cbn in Hc, Hobj, Hnext, Habove.
  pose proof (store_ok_rel w w1 Hok Hc Hnext Habove) as [Hf1 Hi1 Hu1].
  assert (objects w1 !! loc = Some d) as Hloc1 by (by rewrite Hobj).
  destruct (bson_error
              (dict_set "insertion_date"
                 (VDatetime (datetime_now (now_calls w1)))
                 (dict_set "_npObjectIDs"
                    (reference_list (temp_newNpObjectIds w1)) d1)))
    as [e|] eqn:Hb.
  { destruct (save_finish_raises loc d d1 w1 e Hloc1 Hb)
      as (w2 & Hfin & Hfs & _ & _ & Hcoll & _ & _ & Hn & _).
    rewrite H in Hfin. injection Hfin as _ <-. split.
    - intros o b Ho. rewrite Hfs in Ho. apply delete_all_Some, Hf1 in Ho. lia.
    - intros n Hn1. rewrite Hcoll. apply Hi1. lia.
    - intros id. rewrite Hcoll. apply Hu1. }
  destruct (save_finish_returns loc d d1 w1 Hloc1 Hb)
    as (w2 & Hfin & Hfs & _ & _ & Hcoll & _).
  cbn zeta in Hfin, Hcoll. rewrite H in Hfin. injection Hfin as -> <-.
  pose proof (save_finish_next _ _ _ _ _ _ Hloc1 H) as Hn'.
  set (stored := dict_set "insertion_date" _ _) in *.
  assert (dict_get "_id" stored = dict_get "_id" d1) as Hsid.
  { unfold stored. by rewrite !dict_get_set_ne. }
  assert (map_Forall (λ o _, o < next_oid w') (fs w')) as Hfiles.
  { intros o b Ho. rewrite Hfs in Ho. apply delete_all_Some, Hf1 in Ho.
    destruct (dict_get "_id" d1); lia. }
  unfold saved_id in Hcoll. rewrite Hsid in Hcoll.
  destruct (dict_get "_id" d) as [v|] eqn:Hv.
  - destruct (Hid v eq_refl) as [Hkept Hbelow].
    destruct (for_items_get stash_entry stash_rel
                stash_rel_refl stash_rel_trans (λ k x, stash_entry_rel x k)
                "_id" d v _ d1 w1 Hv Hst)
      as (wa & wb & v' & Hf & Hg & _ & _).
    rewrite stash_entry_kept in Hf by done. injection Hf as <- _.
    rewrite Hg in Hcoll, Hn', Hsid. split; [done| |].
    + intros n Hn. rewrite Hcoll. apply Forall_upsert; [|apply Hi1; lia].
      rewrite (has_id_get _ _ _ Hsid).
      destruct (value_eqb v (VObjectId n)) eqn:Heq; [|done].
      apply value_eqb_eq in Heq. apply Hbelow in Heq. lia.
    + intros id'. rewrite Hcoll.
      destruct (has_id id' stored) eqn:Hs'.
      * rewrite (has_id_get _ _ _ Hsid) in Hs'. apply value_eqb_eq in Hs' as <-.
        rewrite filter_upsert; [done| |apply Hu1].
        rewrite (has_id_get _ _ _ Hsid). apply value_eqb_refl.
      * etrans; [|apply (Hu1 id')]. apply sublist_length.
        by apply filter_upsert_out.
  - assert (dict_get "_id" d1 = None) as Hg
      by (eapply for_items_absent; [exact Hv|exact Hst]).
    rewrite Hg in Hcoll, Hn'. split; [done| |].
    + intros n Hn. rewrite Hcoll. apply Forall_app. split; [apply Hi1; lia|].
      constructor; [|done]. unfold has_id. rewrite dict_get_set_eq. cbn.
      apply Nat.eqb_neq. lia.
    + intros id'. rewrite Hcoll, filter_app.
      destruct (has_id id' (dict_set "_id" (VObjectId (next_oid w1)) stored))
        eqn:Hs'.
      * rewrite (filter_cons_True _ _ []) by done. rewrite filter_nil.
        unfold has_id in Hs'. rewrite dict_get_set_eq in Hs'.
        apply value_eqb_eq in Hs' as <-.
        assert (filter (λ x, has_id (VObjectId (next_oid w1)) x = true)
                  (collection w1) = []) as ->; [|cbn; lia].
        apply filter_none, Hi1. lia.
      * rewrite (filter_cons_False _ _ []) by congruence.
        rewrite filter_nil, app_nil_r. apply Hu1.
Qed.

End StoresKept.

(** ** [save] and then [delete] *)

Section SaveThenDelete.
Context {E : Externals}.



End SaveThenDelete.

(** ** Lists pass through *)

Section ListsInPlace.
Context {E : Externals}.




End ListsInPlace.

(** ** [DotDict] *)

Section DotDictProperties.
Import DotDict.

Lemma pyvalue_nested_ind (P : pyvalue → Prop) :
  P PyNone → (∀ a, P (PyAtom a)) →
  (∀ l, Forall P l → P (PyList l)) →
  (∀ d, Forall (λ kv, P kv.2) d → P (PyDict d)) →
  (∀ d, Forall (λ kv, P kv.2) d → P (PyDotDict d)) →
  ∀ x, P x.
Proof.
  intros HNone HAtom HList HDict HDot.
  fix IH 1. intros [|a|l|d|d].
  - exact HNone.
  - apply HAtom.
  - apply HList. induction l as [|x l IHl]; constructor; [apply IH|exact IHl].
  - apply HDict. induction d as [|[k x] d IHd]; constructor; [apply IH|exact IHd].
  - apply HDot. induction d as [|[k x] d IHd]; constructor; [apply IH|exact IHd].
Qed.

Lemma as_dict_items_ext (f : pyvalue → pyvalue) d :
  Forall (λ kv, as_dict (f kv.2) = as_dict kv.2) d →
  as_dict_items as_dict (init_items f d) = as_dict_items as_dict d.
Proof.
  induction 1 as [|[k x] d Hx _ IH]; [done|]. cbn in *. by rewrite Hx, IH.
Qed.

Lemma init_value_as_dict x : as_dict (init_value x) = as_dict x.
Proof.
  induction x as [|a|l _|d IH|d _] using pyvalue_nested_ind; try done.
  cbn. f_equal. by apply as_dict_items_ext.
Qed.

Lemma __init___as_dict arg :
  as_dict_items as_dict (__init__ arg) = as_dict_items as_dict arg.
Proof.
  apply as_dict_items_ext, Forall_forall. intros kv _. apply init_value_as_dict.
Qed.




Lemma dotted_items_init d :
  Forall (λ kv, plain_above_dotted kv.2 → dotted (init_value kv.2)) d →
  dotted_items plain_above_dotted d →
  dotted_items dotted (init_items init_value d).
Proof.
  induction 1 as [|[k x] d Hx _ IH]; [done|]. cbn in *. intros [H1 H2]. auto.
Qed.

Lemma init_value_dotted x : plain_above_dotted x → dotted (init_value x).
Proof.
  induction x as [|a|l _|d IH|d _] using pyvalue_nested_ind; try done.
  cbn. by apply dotted_items_init.
Qed.

Lemma __init___dotted arg :
  dotted_items plain_above_dotted arg → dotted_items dotted (__init__ arg).
Proof.
  apply dotted_items_init, Forall_forall. intros kv _. apply init_value_dotted.
Qed.

Lemma dotted_plain_above_dotted x : dotted x → plain_above_dotted x.
Proof. by destruct x. Qed.


Lemma get___setitem___eq k v d : get k (__setitem__ k v d) = Some v.
Proof.
  induction d as [|[k0 x] d IH]; cbn.
  - by rewrite String.eqb_refl.
  - destruct (String.eqb_spec k0 k) as [->|Hne]; cbn.
    + by rewrite String.eqb_refl.
    + by destruct (String.eqb_spec k0 k).
Qed.

Lemma get___setitem___ne k k' v d :
  k' ≠ k → get k' (__setitem__ k v d) = get k' d.
Proof.
  intros Hne. induction d as [|[k0 x] d IH]; cbn.
  - by destruct (String.eqb_spec k k').
  - destruct (String.eqb_spec k0 k) as [->|Hk]; cbn.
    + by destruct (String.eqb_spec k k').
    + by rewrite IH.
Qed.

Lemma __delitem_____setitem__ k v d :
  get k d = None → __delitem__ k (__setitem__ k v d) = Some d.
Proof.
  induction d as [|[k0 x] d IH]; cbn.
  - by rewrite String.eqb_refl.
  - destruct (String.eqb_spec k0 k) as [->|Hk]; [done|]. intros H. cbn.
    destruct (String.eqb_spec k0 k); [done|]. by rewrite IH.
Qed.

Lemma __delitem___None k d : get k d = None → __delitem__ k d = None.
Proof.
  induction d as [|[k0 x] d IH]; cbn; [done|].
  destruct (String.eqb k0 k); [done|]. intros H. by rewrite IH.
Qed.

Lemma dotted_items___setitem__ k v d :
  dotted v → dotted_items dotted d → dotted_items dotted (__setitem__ k v d).
Proof.
  intros Hv. induction d as [|[k0 x] d IH]; cbn; [done|].
  intros [H1 H2]. destruct (String.eqb k0 k); cbn; auto.
Qed.

(** X17.  Attributes of a [DotDict].  What is read under a name after an
    assignment to it is equal to the value assigned, and is a [DotDict] of it
    when the value is a dict; the other names read as before.  A name that
    was never set reads as [None], and raises nothing, so that it cannot be
    told from one set to [None]; deleting it raises [KeyError]; and deleting a
    name just set for the first time gives back the object as it was.  A
    [DotDict] that holds [DotDict]s at every dict on the way down still does
    so after an assignment of plain dicts. *)
Theorem DotDict_attributes self name value :
  __getattr__ (__setattr__ self name value) name
    = match value with
      | PyDict items | PyDotDict items => PyDotDict (__init__ items)
      | _ => value
      end
  ∧ as_dict (__getattr__ (__setattr__ self name value) name) = as_dict value
  ∧ (∀ other, other ≠ name →
       __getattr__ (__setattr__ self name value) other = __getattr__ self other)
  ∧ (get name self = None →
       __getattr__ self name = PyNone
       ∧ __getattr__ self name = __getattr__ (__setattr__ self name PyNone) name
       ∧ __delattr__ self name = None
       ∧ __delattr__ (__setattr__ self name value) name = Some self)
  ∧ (dotted (PyDotDict self) → plain_above_dotted value →
       dotted (PyDotDict (__setattr__ self name value))).
Proof.
  assert (__getattr__ (__setattr__ self name value) name
    = match value with
      | PyDict items | PyDotDict items => PyDotDict (__init__ items)
      | _ => value
      end) as Hget.
  { unfold __getattr__, __setattr__.
    destruct value; by rewrite get___setitem___eq. }
  split; [exact Hget|]. split; [|split; [|split]].
  - rewrite Hget. destruct value; try done; cbn; f_equal; apply __init___as_dict.
  - intros other Hne. unfold __getattr__, __setattr__.
    destruct value; by rewrite get___setitem___ne.
  - intros Hnone. unfold __getattr__ at 1 2. rewrite Hnone.
    split; [done|]. split.
    { unfold __getattr__, __setattr__. by rewrite get___setitem___eq. }
    split; [by apply __delitem___None|].
    unfold __delattr__, __setattr__.
    destruct value; by apply __delitem_____setitem__.
  - cbn [dotted]. intros Hself Hvalue. unfold __setattr__.
    destruct value; try (by apply dotted_items___setitem__);
      apply dotted_items___setitem__; try done; cbn [dotted].
    + by apply __init___dotted.
    + apply __init___dotted. revert Hvalue. cbn.
      clear. induction items as [|[k x] d IH]; [done|]. cbn.
      intros [H1 H2]. split; [by apply dotted_plain_above_dotted|auto].
Qed.






End DotDictProperties.

(** ** The code on concrete inputs *)

Section Runs.
#[local] Existing Instance plain_externals.
Import Run.

(** C1, as stated, fails: the second save of the scenario puts the new
    array, deletes the orphaned file 0 and only then stores the document. *)
Lemma resave_deletes_orphan_before_upsert :
  calls_since trial1_edited trial1_resaved
    = [FsPut 2; FsDelete 0; CollectionSave (VObjectId 1)]
  ∧ ¬ deleted_only_after_upsert (calls_since trial1_edited trial1_resaved).
Proof.
  assert (calls_since trial1_edited trial1_resaved
    = [FsPut 2; FsDelete 0; CollectionSave (VObjectId 1)]) as Heq
    by (vm_compute; reflexivity).
  split; [exact Heq|]. rewrite Heq. intros H.
  destruct (H 1 0 eq_refl) as (j & id & Hj & Hc).
  destruct j as [|j]; [|lia]. discriminate Hc.
Qed.


(** C6, as stated, fails: [delete] of an identity that no document has
    raises [TypeError], not [NotFoundError]. *)
Lemma delete_missing_is_not_NotFoundError :
  (delete (VObjectId 7) trial1_saved).1 = Raise TypeError
  ∧ (delete (VObjectId 7) trial1_saved).1 ≠ Raise NotFoundError.
Proof.
  assert ((delete (VObjectId 7) trial1_saved).1 = Raise TypeError) as Heq
    by (vm_compute; reflexivity).
  split; [exact Heq|]. rewrite Heq. discriminate.
Qed.

(** C2 on the code: the second save of three equal arrays meets the first
    array with the old list [0; 1; 2], all three files of the array's hash.
    The loop reuses two of them, 0 and 2, skips 1, puts both on the new list
    and leaves the array's place to the last, 2, not to the first. *)
Theorem stash_array_reuses_two_old_files :
  temp_oldNpObjectIDs triple_at_first_array = [0; 1; 2]
  ∧ (λ o, md5_hexdigest <$> fs triple_at_first_array !! o) <$> [0; 1; 2]
    = replicate 3 (Some (md5_hexdigest (_npArray2Binary array123)))
  ∧ ∃ w', stash_array array123 triple_at_first_array = (Ok 2, w')
          ∧ temp_newNpObjectIds w' = [0; 2]
          ∧ temp_oldNpObjectIDs w' = [1].
Proof.
  split; [vm_compute; reflexivity|]. split.
  - vm_compute. reflexivity.
  - eexists. split; [vm_compute; reflexivity|].
    split; vm_compute; reflexivity.
Qed.

(** C3 on the code: a document of three equal arrays is saved, and saved
    again as it is.  The reference list changes from [0; 1; 2] to
    [0; 2; 1; 4] and GridFS grows from three files to four. *)
Theorem resave_of_equal_arrays_changes_references :
  references (objects triple_saved !! 0)
    = Some (reference_list [0; 1; 2])
  ∧ references (objects triple_resaved !! 0)
    = Some (reference_list [0; 2; 1; 4])
  ∧ size (fs triple_saved) = 3
  ∧ size (fs triple_resaved) = 4.
Proof. repeat split; vm_compute; reflexivity. Qed.

(** C8, as stated, fails: two saves whose steps alternate on one wrapper
    both end with the reference list [0; 1], so the list of the first
    document names the file of the second document's array; the same two
    saves one after the other end with [0] and [2]. *)
Lemma interleaved_saves_share_references :
  references_own_arrays (run_schedule in_turn two_threads two_callers).2 0
  ∧ references_own_arrays (run_schedule in_turn two_threads two_callers).2 1
  ∧ references (objects (run_schedule interleaved two_threads two_callers).2 !! 0)
    = Some (reference_list [0; 1])
  ∧ ¬ references_own_arrays (run_schedule interleaved two_threads two_callers).2 0.
Proof.
  split; [|split; [|split]].
  - eexists _, _. split; [vm_compute; reflexivity|].
    split; [vm_compute; reflexivity|].
    intros o Ho. apply list_elem_of_singleton in Ho as ->.
    exists "data", array123. split; vm_compute; reflexivity.
  - eexists _, _. split; [vm_compute; reflexivity|].
    split; [vm_compute; reflexivity|].
    intros o Ho. apply list_elem_of_singleton in Ho as ->.
    exists "data", array456. split; vm_compute; reflexivity.
  - vm_compute. reflexivity.
  - intros (d & refs & Hd & Hrefs & Hown).
    vm_compute in Hd. injection Hd as <-.
    vm_compute in Hrefs. injection Hrefs as <-.
    destruct (Hown 1) as (key & a & Hkey & Hfs).
    { apply elem_of_cons. right. apply elem_of_cons. by left. }
    vm_compute in Hfs. injection Hfs as <-.
    cbn [dict_get] in Hkey.
    repeat (match type of Hkey with
            | (if ?b then _ else _) = _ => destruct b
            end; try discriminate).
Qed.

(** C7, as stated, fails: an array under the key '_id' of a nested dict is
    moved to GridFS by the save and not brought back by the load. *)
Lemma array_under_nested_id_is_not_restored :
  get_path ["meta"; "_id"] (VDict nested_id) = Some (VNdarray array123)
  ∧ ¬ restores_array (world_with 0 nested_id) 0 ["meta"; "_id"] array123.
Proof.
  split; [reflexivity|].
  intros [Hok _].
  assert (save_doc 0 (world_with 0 nested_id)
          = (Ok (VObjectId 1), (save_doc 0 (world_with 0 nested_id)).2)) as Hs
    by (vm_compute; reflexivity).
  destruct (Hok _ _ Hs) as (d' & Hl & Hg).
  vm_compute in Hl. injection Hl as <-.
  vm_compute in Hg. discriminate Hg.
Qed.

(** C10, as stated, fails: a list that holds an array does not pass through
    [save].  The encode pass leaves the array in the list, the encoder of
    [collection.save] refuses it, and the [save] raises [InvalidDocument]
    with nothing stored. *)
Lemma save_of_array_in_list_raises :
  get_path ["runs"] (VDict with_list)
    = Some (VList [VNdarray array123; VObjectId 0])
  ∧ (save_doc 0 (world_with 0 with_list)).1 = Raise InvalidDocument
  ∧ collection (save_doc 0 (world_with 0 with_list)).2 = []
  ∧ load (λ _, true) true (save_doc 0 (world_with 0 with_list)).2
    = (Ok VNone, (save_doc 0 (world_with 0 with_list)).2).
Proof.
  split; [reflexivity|]. split; [vm_compute; reflexivity|].
  split; vm_compute; reflexivity.
Qed.

(** ** The theorems at concrete inputs *)

Lemma load_return_shape_witness :
  (matches (has_id (VObjectId 7)) two_saved = []
   ∧ load (has_id (VObjectId 7)) true two_saved = (Ok VNone, two_saved))
  ∧ (matches (has_id (VObjectId 1)) two_saved
       = [[("data", VObjectId 0); ("_npObjectIDs", VList [VObjectId 0]);
           ("insertion_date", VDatetime 1000); ("_id", VObjectId 1)]]
     ∧ _loadNPArrays
         [("data", VObjectId 0); ("_npObjectIDs", VList [VObjectId 0]);
          ("insertion_date", VDatetime 1000); ("_id", VObjectId 1)] two_saved
       = (Ok [("data", VNdarray array123); ("_npObjectIDs", VList [VObjectId 0]);
              ("insertion_date", VDatetime 1000); ("_id", VObjectId 1)], two_saved)
     ∧ load (has_id (VObjectId 1)) true two_saved
       = (Ok (VDict [("data", VNdarray array123);
                     ("_npObjectIDs", VList [VObjectId 0]);
                     ("insertion_date", VDatetime 1000); ("_id", VObjectId 1)]),
          two_saved))
  ∧ (1 < length (matches (λ _, true) two_saved)
     ∧ load (λ _, true) false two_saved
       = (Ok (VList (VDict <$> matches (λ _, true) two_saved)), two_saved)).
Proof.
  pose proof (load_return_shape (has_id (VObjectId 7)) two_saved) as (H0 & _).
  pose proof (load_return_shape (has_id (VObjectId 1)) two_saved) as (_ & H1 & _).
  pose proof (load_return_shape (λ _, true) two_saved) as (_ & _ & H2).
  assert (matches (has_id (VObjectId 7)) two_saved = []) as E0
    by (vm_compute; reflexivity).
  assert (matches (has_id (VObjectId 1)) two_saved
       = [[("data", VObjectId 0); ("_npObjectIDs", VList [VObjectId 0]);
           ("insertion_date", VDatetime 1000); ("_id", VObjectId 1)]]) as E1
    by (vm_compute; reflexivity).
  assert (_loadNPArrays
         [("data", VObjectId 0); ("_npObjectIDs", VList [VObjectId 0]);
          ("insertion_date", VDatetime 1000); ("_id", VObjectId 1)] two_saved
       = (Ok [("data", VNdarray array123); ("_npObjectIDs", VList [VObjectId 0]);
              ("insertion_date", VDatetime 1000); ("_id", VObjectId 1)], two_saved))
    as E1' by (vm_compute; reflexivity).
  assert (1 < length (matches (λ _, true) two_saved)) as E2
    by (vm_compute; lia).
  split; [|split].
  - split; [exact E0|]. exact (H0 E0 true).
  - split; [exact E1|]. split; [exact E1'|].
    exact (proj2 (H1 _ E1) _ _ E1').
  - split; [exact E2|]. exact (proj1 (H2 E2)).
Defined.

Lemma save_deletes_orphans_before_upsert_witness :
  objects trial1_edited !! 0 = Some trial1_as_edited
  ∧ save_doc 0 trial1_edited = (Ok (VObjectId 1), trial1_resaved)
  ∧ puts_then_deletes_then_upsert trial1_as_edited trial1_edited
      (VObjectId 1) trial1_resaved.
Proof.
  assert (objects trial1_edited !! 0 = Some trial1_as_edited) as H1
    by (vm_compute; reflexivity).
  assert (save_doc 0 trial1_edited = (Ok (VObjectId 1), trial1_resaved)) as H2
    by (vm_compute; reflexivity).
  split; [exact H1|]. split; [exact H2|].
  exact (save_deletes_orphans_before_upsert 0 _ _ _ _ H1 H2).
Defined.


Lemma delete_missing_raises_TypeError_witness :
  Forall (λ d, has_id (VObjectId 7) d = false) (collection trial1_saved)
  ∧ delete (VObjectId 7) trial1_saved = (Raise TypeError, trial1_saved).
Proof.
  assert (Forall (λ d, has_id (VObjectId 7) d = false) (collection trial1_saved))
    as H by (vm_compute; repeat constructor).
  split; [exact H|]. exact (delete_missing_raises_TypeError _ _ H).
Defined.

Lemma save_resets_shared_lists_witness :
  objects (world_with 0 trial1) !! 0 = Some trial1
  ∧ old_references trial1 (world_with 0 trial1) = (Ok [], world_with 0 trial1)
  ∧ save_doc 0 (with_temp_new [6] (with_temp_old [5] (world_with 0 trial1)))
    = save_doc 0 (world_with 0 trial1).
Proof.
  assert (objects (world_with 0 trial1) !! 0 = Some trial1) as H1
    by (vm_compute; reflexivity).
  assert (old_references trial1 (world_with 0 trial1)
          = (Ok [], world_with 0 trial1)) as H2 by (vm_compute; reflexivity).
  split; [exact H1|]. split; [exact H2|].
  destruct (save_resets_shared_lists 0 trial1 (world_with 0 trial1) [5] [6] H1)
    as (_ & _ & _ & _ & H & _).
  exact (H [] H2).
Defined.



Lemma load_after_save_restores_array_witness :
  store_ok trial1_saved
  ∧ objects trial1_saved !! 0 = Some trial1_as_saved
  ∧ document_ok trial1_saved trial1_as_saved [0]
  ∧ get_path ["data"] (VDict trial1_as_saved) = Some (VNdarray array123)
  ∧ restores_array trial1_saved 0 ["data"] array123.
Proof.
  assert (store_ok trial1_saved) as H1.
  { split.
    - apply map_Forall_to_list. vm_compute. repeat constructor.
    - intros n Hn. assert (collection trial1_saved
        = [[("name", VStr "trial1"); ("data", VObjectId 0);
            ("_npObjectIDs", VList [VObjectId 0]);
            ("insertion_date", VDatetime 1000); ("_id", VObjectId 1)]]) as ->
        by (vm_compute; reflexivity).
      assert (next_oid trial1_saved = 2) as Hnext by (vm_compute; reflexivity).
      rewrite Hnext in Hn.
      repeat constructor. unfold has_id. cbn.
      destruct n as [|[|n]]; [lia|lia|reflexivity].
    - intros id. etrans; [apply length_filter|].
      vm_compute. lia. }
  assert (objects trial1_saved !! 0 = Some trial1_as_saved) as H2
    by (vm_compute; reflexivity).
  assert (document_ok trial1_saved trial1_as_saved [0]) as H3.
  { split.
    - vm_compute. reflexivity.
    - repeat constructor. apply not_elem_of_nil.
    - intros o Ho. apply list_elem_of_singleton in Ho as ->.
      exists array123. vm_compute. reflexivity.
    - intros o b a _ _ _ Hmd5. symmetry. exact Hmd5.
    - cbn. repeat split. }
  assert (get_path ["data"] (VDict trial1_as_saved) = Some (VNdarray array123))
    as H4 by reflexivity.
  split; [exact H1|]. split; [exact H2|]. split; [exact H3|]. split; [exact H4|].
  exact (load_after_save_restores_array 0 _ _ _ "data" _ _
           (λ a, eq_refl) H1 H2 H3 H4 eq_refl ltac:(discriminate) ltac:(discriminate)).
Defined.

Lemma store_ok_trial1_saved : store_ok trial1_saved.
Proof.
  split.
  - apply map_Forall_to_list. vm_compute. repeat constructor.
  - intros n Hn.
    assert (collection trial1_saved = [trial1_stored]) as ->
      by (vm_compute; reflexivity).
    assert (next_oid trial1_saved = 2) as Hnext by (vm_compute; reflexivity).
    rewrite Hnext in Hn.
    repeat constructor. unfold has_id. cbn.
    destruct n as [|[|n]]; [lia|lia|reflexivity].
  - intros id. etrans; [apply length_filter|]. vm_compute. lia.
Qed.


Lemma failed_save_stores_nothing_witness :
  objects (world_with 0 dangling) !! 0 = Some dangling
  ∧ save_doc 0 (world_with 0 dangling)
    = (Raise NoFile, (save_doc 0 (world_with 0 dangling)).2)
  ∧ collection (save_doc 0 (world_with 0 dangling)).2
    = collection (world_with 0 dangling).
Proof.
  assert (objects (world_with 0 dangling) !! 0 = Some dangling) as H1
    by (vm_compute; reflexivity).
  assert (save_doc 0 (world_with 0 dangling)
          = (Raise NoFile, (save_doc 0 (world_with 0 dangling)).2)) as H2
    by (vm_compute; reflexivity).
  split; [exact H1|]. split; [exact H2|].
  destruct (failed_save_stores_nothing 0 _ _ _ _ H1 H2) as (Hc & _).
  exact Hc.
Defined.

Lemma save_leaves_caller_in_step_witness :
  objects trial1_edited !! 0 = Some trial1_as_edited
  ∧ save_doc 0 trial1_edited = (Ok (VObjectId 1), trial1_resaved)
  ∧ ∃ stored d',
      stored ∈ collection trial1_resaved
      ∧ objects trial1_resaved !! 0 = Some d'
      ∧ dict_get "_npObjectIDs" stored = dict_get "_npObjectIDs" d'.
Proof.
  assert (objects trial1_edited !! 0 = Some trial1_as_edited) as H1
    by (vm_compute; reflexivity).
  assert (save_doc 0 trial1_edited = (Ok (VObjectId 1), trial1_resaved)) as H2
    by (vm_compute; reflexivity).
  split; [exact H1|]. split; [exact H2|].
  destruct (save_leaves_caller_in_step 0 _ _ _ _ H1 H2)
    as (stored & d' & refs & Hin & Hobj & _ & _ & Hs & Hd & _).
  exists stored, d'. split; [exact Hin|]. split; [exact Hobj|].
  rewrite Hs, Hd. reflexivity.
Defined.

Lemma save_of_list_is_saves_in_turn_witness :
  save [0; 1] two_callers = (Ok [VObjectId 1; VObjectId 3], two_saved)
  ∧ length [VObjectId 1; VObjectId 3] = length [0; 1].
Proof.
  assert (save [0; 1] two_callers = (Ok [VObjectId 1; VObjectId 3], two_saved))
    as H1 by (vm_compute; reflexivity).
  split; [exact H1|].
  destruct (save_of_list_is_saves_in_turn [0; 1] [] two_callers) as (_ & Hlen & _).
  exact (Hlen _ _ H1).
Defined.

Lemma save_inserts_or_overwrites_witness :
  objects trial1_edited !! 0 = Some trial1_as_edited
  ∧ save_doc 0 trial1_edited = (Ok (VObjectId 1), trial1_resaved)
  ∧ kept_by_encode (VObjectId 1) = true
  ∧ matches (has_id (VObjectId 1)) trial1_edited ≠ []
  ∧ length (collection trial1_resaved) = length (collection trial1_edited).
Proof.
  assert (objects trial1_edited !! 0 = Some trial1_as_edited) as H1
    by (vm_compute; reflexivity).
  assert (save_doc 0 trial1_edited = (Ok (VObjectId 1), trial1_resaved)) as H2
    by (vm_compute; reflexivity).
  assert (matches (has_id (VObjectId 1)) trial1_edited = [trial1_stored]) as H3
    by (vm_compute; reflexivity).
  assert (matches (has_id (VObjectId 1)) trial1_edited ≠ []) as H4
    by (rewrite H3; discriminate).
  split; [exact H1|]. split; [exact H2|]. split; [reflexivity|].
  split; [exact H4|].
  pose proof (save_inserts_or_overwrites 0 _ _ _ _ H1 H2) as H.
  assert (dict_get "_id" trial1_as_edited = Some (VObjectId 1)) as Hid
    by reflexivity.
  rewrite Hid in H.
  destruct (H eq_refl) as (_ & stored & _ & _ & Hlen & _).
  exact (Hlen H4).
Defined.


Lemma save_lists_every_array_reference_witness :
  objects trial1_edited !! 0 = Some trial1_as_edited
  ∧ save_doc 0 trial1_edited = (Ok (VObjectId 1), trial1_resaved)
  ∧ get_path ["data"] (VDict trial1_as_edited) = Some (VNdarray array456)
  ∧ "data" ≠ "insertion_date"
  ∧ ∃ stored refs o,
      stored ∈ collection trial1_resaved
      ∧ dict_get "_npObjectIDs" stored = Some (reference_list refs)
      ∧ get_path ["data"] (VDict stored) = Some (VObjectId o)
      ∧ o ∈ refs.
Proof.
  assert (objects trial1_edited !! 0 = Some trial1_as_edited) as H1
    by (vm_compute; reflexivity).
  assert (save_doc 0 trial1_edited = (Ok (VObjectId 1), trial1_resaved)) as H2
    by (vm_compute; reflexivity).
  assert (get_path ["data"] (VDict trial1_as_edited) = Some (VNdarray array456))
    as H3 by reflexivity.
  assert ("data" ≠ "insertion_date") as H4 by discriminate.
  split; [exact H1|]. split; [exact H2|]. split; [exact H3|]. split; [exact H4|].
  destruct (save_lists_every_array_reference 0 _ _ _ _ "data" [] _ H1 H2 H3 H4)
    as (stored & refs & o & Hin & _ & Hrefs & Hg & Ho).
  exists stored, refs, o. auto.
Defined.

Lemma encode_pass_leaves_no_numpy_value_witness :
  _stashNPArrays trial1 empty_world
  = (Ok [("name", VStr "trial1"); ("data", VObjectId 0)],
     (_stashNPArrays trial1 empty_world).2)
  ∧ numpy_free_items numpy_free [("name", VStr "trial1"); ("data", VObjectId 0)].
Proof.
  assert (_stashNPArrays trial1 empty_world
          = (Ok [("name", VStr "trial1"); ("data", VObjectId 0)],
             (_stashNPArrays trial1 empty_world).2)) as H
    by (vm_compute; reflexivity).
  split; [exact H|].
  exact (proj1 (encode_pass_leaves_no_numpy_value _ _ _ _ H)).
Defined.

Lemma decode_pass_expands_references_witness :
  _loadNPArrays trial1_stored trial1_saved
  = (Ok (dict_set "data" (VNdarray array123) trial1_stored), trial1_saved)
  ∧ get_path ["data"] (VDict trial1_stored) = Some (VObjectId 0)
  ∧ last ["data"] = Some "data"
  ∧ ∃ b x, fs trial1_saved !! 0 = Some b ∧ pickle_loads b = Some x
           ∧ get_path ["data"]
               (VDict (dict_set "data" (VNdarray array123) trial1_stored))
             = Some x.
Proof.
  assert (_loadNPArrays trial1_stored trial1_saved
          = (Ok (dict_set "data" (VNdarray array123) trial1_stored),
             trial1_saved)) as H1 by (vm_compute; reflexivity).
  assert (get_path ["data"] (VDict trial1_stored) = Some (VObjectId 0)) as H2
    by reflexivity.
  assert (last ["data"] = Some "data") as H3 by reflexivity.
  split; [exact H1|]. split; [exact H2|]. split; [exact H3|].
  destruct (decode_pass_expands_references _ _ _ _ _ _ _ H1 H2 H3)
    as (_ & _ & H).
  exact H.
Defined.

Lemma load_raises_on_reference_without_file_witness :
  [("_id", VObjectId 0); ("parent", VObjectId 7)]
    ∈ matches (has_id (VObjectId 0)) with_parent
  ∧ get_path ["parent"] (VDict [("_id", VObjectId 0); ("parent", VObjectId 7)])
    = Some (VObjectId 7)
  ∧ last ["parent"] = Some "parent"
  ∧ "parent" ≠ "_id"
  ∧ fs with_parent !! 7 = None
  ∧ (∃ e, load (has_id (VObjectId 0)) true with_parent = (Raise e, with_parent))
  ∧ (∃ r, load (has_id (VObjectId 0)) false with_parent = (Ok r, with_parent)).
Proof.
  assert ([("_id", VObjectId 0); ("parent", VObjectId 7)]
            ∈ matches (has_id (VObjectId 0)) with_parent) as H1.
  { assert (matches (has_id (VObjectId 0)) with_parent
            = [[("_id", VObjectId 0); ("parent", VObjectId 7)]]) as ->
      by (vm_compute; reflexivity).
    apply list_elem_of_singleton. reflexivity. }
  assert (get_path ["parent"]
            (VDict [("_id", VObjectId 0); ("parent", VObjectId 7)])
          = Some (VObjectId 7)) as H2 by reflexivity.
  assert (last ["parent"] = Some "parent") as H3 by reflexivity.
  assert ("parent" ≠ "_id") as H4 by discriminate.
  assert (fs with_parent !! 7 = None) as H5 by (vm_compute; reflexivity).
  split; [exact H1|]. split; [exact H2|]. split; [exact H3|].
  split; [exact H4|]. split; [exact H5|].
  exact (load_raises_on_reference_without_file _ _ _ _ _ _ H1 H2 H3 H4 H5).
Defined.

Lemma loadFromIds_answers_each_id_witness :
  Forall (λ id, ObjectId_or_str id = true)
    [VObjectId 1; VStr "1"; VObjectId 7]
  ∧ loadFromIds spell (VList [VObjectId 1; VStr "1"; VObjectId 7]) trial1_saved
    = (inl [VDict (dict_set "data" (VNdarray array123) trial1_stored);
            VDict (dict_set "data" (VNdarray array123) trial1_stored);
            VNone],
       trial1_saved)
  ∧ matches (has_id (id_sought spell (VObjectId 7))) trial1_saved = []
  ∧ [VDict (dict_set "data" (VNdarray array123) trial1_stored);
     VDict (dict_set "data" (VNdarray array123) trial1_stored);
     VNone] !! 2 = Some VNone.
Proof.
  assert (Forall (λ id, ObjectId_or_str id = true)
            [VObjectId 1; VStr "1"; VObjectId 7]) as H1
    by (repeat constructor).
  assert (loadFromIds spell (VList [VObjectId 1; VStr "1"; VObjectId 7])
            trial1_saved
          = (inl [VDict (dict_set "data" (VNdarray array123) trial1_stored);
                  VDict (dict_set "data" (VNdarray array123) trial1_stored);
                  VNone],
             trial1_saved)) as H2 by (vm_compute; reflexivity).
  assert (matches (has_id (id_sought spell (VObjectId 7))) trial1_saved = [])
    as H3 by (vm_compute; reflexivity).
  split; [exact H1|]. split; [exact H2|]. split; [exact H3|].
  destruct (loadFromIds_answers_each_id spell _ trial1_saved H1) as (_ & H & _).
  exact (H _ _ 2 (VObjectId 7) H2 eq_refl H3).
Defined.

Lemma loadFromIds_id_of_other_type_witness :
  ObjectId_or_str (VInt 5) = false
  ∧ loadFromIds spell (VList [VInt 5; VObjectId 1]) trial1_saved
    = (inr UnboundLocalError, trial1_saved)
  ∧ loadFromIds spell (VList [VObjectId 1; VInt 5]) trial1_saved
    = loadFromIds spell (VList [VObjectId 1; VObjectId 1]) trial1_saved.
Proof.
  assert (ObjectId_or_str (VInt 5) = false) as H1 by reflexivity.
  split; [exact H1|].
  destruct (loadFromIds_id_of_other_type spell (VInt 5) trial1_saved H1)
    as (Hfirst & _ & Hlater).
  split; [exact (Hfirst [VObjectId 1])|].
  exact (Hlater [] (VObjectId 1) [] eq_refl).
Defined.

Lemma save_keeps_stores_well_kept_witness :
  store_ok trial1_saved
  ∧ objects trial1_saved !! 0 = Some trial1_as_saved
  ∧ (∀ v, dict_get "_id" trial1_as_saved = Some v →
       kept_by_encode v = true ∧ ∀ n, v = VObjectId n → n < next_oid trial1_saved)
  ∧ save_doc 0 trial1_saved = (Ok (VObjectId 1), (save_doc 0 trial1_saved).2)
  ∧ store_ok (save_doc 0 trial1_saved).2.
Proof.
  assert (objects trial1_saved !! 0 = Some trial1_as_saved) as H2
    by (vm_compute; reflexivity).
  assert (∀ v, dict_get "_id" trial1_as_saved = Some v →
            kept_by_encode v = true
            ∧ ∀ n, v = VObjectId n → n < next_oid trial1_saved) as H3.
  { intros v [= <-]. split; [reflexivity|]. intros n [= <-].
    assert (next_oid trial1_saved = 2) as -> by (vm_compute; reflexivity). lia. }
  assert (save_doc 0 trial1_saved
          = (Ok (VObjectId 1), (save_doc 0 trial1_saved).2)) as H4
    by (vm_compute; reflexivity).
  split; [exact store_ok_trial1_saved|]. split; [exact H2|].
  split; [exact H3|]. split; [exact H4|].
  exact (save_keeps_stores_well_kept 0 _ _ _ _ store_ok_trial1_saved H2 H3 H4).
Defined.




Lemma DotDict_attributes_witness :
  DotDict.get "b" [("a", DotDict.PyAtom "x")] = None
  ∧ DotDict.__getattr__ [("a", DotDict.PyAtom "x")] "b" = DotDict.PyNone
  ∧ DotDict.__delattr__
      (DotDict.__setattr__ [("a", DotDict.PyAtom "x")] "b" (DotDict.PyDict []))
      "b"
    = Some [("a", DotDict.PyAtom "x")].
Proof.
  assert (DotDict.get "b" [("a", DotDict.PyAtom "x")] = None) as H
    by reflexivity.
  split; [exact H|].
  destruct (DotDict_attributes [("a", DotDict.PyAtom "x")] "b" (DotDict.PyDict []))
    as (_ & _ & _ & Hmiss & _).
  destruct (Hmiss H) as (H1 & _ & _ & H4).
  split; [exact H1|exact H4].
Defined.


End Runs.
